(** * Api-BD: membership, authorization, connection broker and query gateway

    A shallow embedding of the parts of the backend that decide its
    membership and connection-handling properties:

    - [Mappers]   : config/database.js, the snake-case mappers of the one
                    knex instance, and what they do to a fetched row;
    - [Relations] : the [relationMappings] of the models and objection's
                    resolution of a relation;
    - [Member]    : models/ProjectMember.js (role table, addMember,
                    removeMember, updateMember);
    - [Race]      : removeMember as the sequence of its database
                    operations, for requests that overlap;
    - [Authz]     : middleware/auth.js [authorizeProject] and
                    models/BaseModel.js [checkPermission];
    - [Databases] : models/ProjectDatabase.js (hooks, getConnectionConfig);
    - [Broker]    : routes/query.routes.js [getDbConnection] and
                    [cleanupDbConnections];
    - [Gateway]   : routes/query.routes.js, the POST /execute handler;
    - [MemberStatic], [Authn], [DatabasesMore] :
                    the permission checks and catalogue of ProjectMember,
                    the [authenticate] middleware and the primary lookup.

    Tables are lists of rows in storage order, JavaScript [undefined] and
    SQL NULL are [None], a thrown [Error] is the left summand of [result].
    The models are embedded as the repository configures them: rows come
    back through the mappers of config/database.js, and relations are
    resolved against the [relationMappings] the models declare. *)

From Stdlib Require Import ZArith Lia Ascii.
From stdpp Require Import base option list strings pretty sorting gmap.

Local Open Scope string_scope.
Local Open Scope list_scope.

(** ** Thrown errors *)

(** A JavaScript [Error] with its message. *)
Inductive error : Type :=
  | Error (message : string).

#[global] Instance error_eq_dec : EqDecision error.
Proof. solve_decision. Defined.

(** The outcome of a call: the value it returns or the error it throws. *)
Inductive result (A : Type) : Type :=
  | Ok (a : A)
  | Err (e : error).
Arguments Ok {A} a.
Arguments Err {A} e.

Definition is_ok {A} (r : result A) : bool :=
  match r with Ok _ => true | Err _ => false end.

(** * The configuration of knex *)

Module Mappers.

(** config/database.js spreads [knexSnakeCaseMappers()] into the knex
    configuration of every environment, and models/BaseModel.js binds
    the one instance built from it to all models.  The mapper
    [wrapIdentifier] turns the identifiers of a query into snake case,
    which leaves the column names of the queries below as they are; the
    mapper [postProcessResponse] renames the keys of every fetched row
    with objection's [camelCase]: the first character is kept, every
    later underscore is dropped and the character after an underscore is
    put in upper case. *)
Definition upper (a : ascii) : ascii :=
  let n := nat_of_ascii a in
  if (Nat.leb 97 n && Nat.leb n 122)%bool then ascii_of_nat (n - 32) else a.

Fixpoint camelCase_from (prevChar : ascii) (l : list ascii) : list ascii :=
  match l with
  | [] => []
  | char :: l' =>
      if bool_decide (char = "_"%char) then camelCase_from char l'
      else (if bool_decide (prevChar = "_"%char) then upper char else char)
           :: camelCase_from char l'
  end.

Definition camelCase (str : string) : string :=
  match str with
  | EmptyString => EmptyString
  | String c rest =>
      String c (String.string_of_list_ascii
                  (camelCase_from c (String.list_ascii_of_string rest)))
  end.

(** Reading the property [column] of a fetched row, [v] being the value
    of the column of that name.  The row carries the keys [camelCase c]
    of its columns [c], none of which has an underscore after its first
    character: the property is there when [camelCase] leaves the name as
    it is, and reads [undefined] otherwise. *)
Definition fetched {A : Type} (column : string) (v : A) : option A :=
  if bool_decide (camelCase column = column) then Some v else None.

(** JavaScript truthiness of a boolean property that may be
    [undefined]. *)
Definition truthy (v : option bool) : bool := default false v.

End Mappers.

(** * Relations of the models *)

Module Relations.

(** An entry of a model's [relationMappings]: the name of the relation
    and its [modelClass], which every model gives as a file name. *)
Record RelationMapping : Type := mkRelation {
  relation : string;
  modelClass : string
}.

(** A model class: its name and its [relationMappings]. *)
Record Model : Type := mkModel {
  model_name : string;
  relationMappings : list RelationMapping
}.

Definition BaseModel : Model := mkModel "BaseModel" [].

Definition Project : Model := mkModel "Project"
  [ mkRelation "createdBy" "User.js";
    mkRelation "members" "ProjectMember.js";
    mkRelation "activities" "ProjectActivity.js";
    mkRelation "versions" "ProjectVersion.js";
    mkRelation "template" "ProjectTemplate.js";
    mkRelation "databases" "ProjectDatabase.js";
    mkRelation "queries" "Query.js" ].

Definition ProjectMember : Model := mkModel "ProjectMember"
  [ mkRelation "project" "Project.js";
    mkRelation "user" "User.js";
    mkRelation "invitedBy" "User.js" ].

Definition ProjectDatabase : Model := mkModel "ProjectDatabase"
  [ mkRelation "project" "Project.js";
    mkRelation "createdBy" "User.js" ].

Definition ProjectActivity : Model := mkModel "ProjectActivity"
  [ mkRelation "project" "Project.js";
    mkRelation "user" "User.js" ].

Definition ProjectTemplate : Model := mkModel "ProjectTemplate"
  [ mkRelation "createdBy" "User.js";
    mkRelation "updatedBy" "User.js";
    mkRelation "projects" "Project.js" ].

Definition ProjectVersion : Model := mkModel "ProjectVersion"
  [ mkRelation "project" "Project.js";
    mkRelation "createdBy" "User.js" ].

Definition User : Model := mkModel "User"
  [ mkRelation "projects" "Project.js" ].

(** The model classes of the repository. *)
Definition models : list Model :=
  [ BaseModel; Project; ProjectMember; ProjectDatabase; ProjectActivity;
    ProjectTemplate; ProjectVersion; User ].

(** The static [modelPaths]: no model declares any. *)
Definition modelPaths : list string := [].

(** [this.relatedQuery(name)] up to the point where the query builder
    exists.  objection looks the relation up in the mappings of the
    class and throws when it is not there; a [modelClass] given as a
    file name that is not an absolute path is looked for under each of
    [modelPaths], and objection throws when none gives it.  The result
    is the path of the module of the related model. *)
Definition relatedQuery (this : Model) (name : string) : result string :=
  match List.find (fun r => bool_decide (relation r = name)) (relationMappings this) with
  | None =>
      Err (Error ("A model class " +:+ model_name this +:+
                  " doesn't have relation " +:+ name))
  | Some r =>
      if String.prefix "/" (modelClass r) then Ok (modelClass r)
      else
        match modelPaths with
        | dir :: _ => Ok (dir +:+ "/" +:+ modelClass r)
        | [] =>
            Err (Error (model_name this +:+ ".relationMappings." +:+ name +:+
                        ": modelClass: could not resolve " +:+ modelClass r +:+
                        " using modelPaths"))
        end
  end.

End Relations.

(** * ProjectMember *)

Module Member.

(** One row of [project_members] (jsonSchema of the model). *)
Record ProjectMember : Type := mkMember {
  id : string;
  project_id : string;
  user_id : string;
  role : string;
  permissions : list string;
  is_active : bool;
  invited_by : option string;
  invited_at : option string;
  joined_at : option string;
  last_accessed_at : option string;
  created_at : string;
  updated_at : string
}.

#[global] Instance ProjectMember_eq_dec : EqDecision ProjectMember.
Proof. solve_decision. Defined.

Definition table : Type := list ProjectMember.

(** An entry of the static [ROLES] object. *)
Record RoleDef : Type := mkRole {
  key : string;
  name : string;
  role_permissions : list string
}.

Definition ADMIN : RoleDef := mkRole "admin" "Administrator"
  [ "project:read"; "project:update"; "project:delete"; "project:export"; "project:import";
    "member:list"; "member:add"; "member:remove"; "member:update";
    "query:create"; "query:read"; "query:update"; "query:delete"; "query:execute";
    "query:export"; "query:import";
    "database:create"; "database:read"; "database:update"; "database:delete"; "database:test";
    "dashboard:create"; "dashboard:read"; "dashboard:update"; "dashboard:delete";
    "schedule:create"; "schedule:read"; "schedule:update"; "schedule:delete"; "schedule:execute";
    "api_key:create"; "api_key:read"; "api_key:update"; "api_key:delete";
    "webhook:create"; "webhook:read"; "webhook:update"; "webhook:delete";
    "settings:read"; "settings:update";
    "activity:read" ].

Definition EDITOR : RoleDef := mkRole "editor" "Editor"
  [ "project:read"; "project:export";
    "member:list";
    "query:create"; "query:read"; "query:update"; "query:delete"; "query:execute"; "query:export";
    "database:read"; "database:test";
    "dashboard:create"; "dashboard:read"; "dashboard:update"; "dashboard:delete";
    "schedule:create"; "schedule:read"; "schedule:update"; "schedule:delete"; "schedule:execute";
    "api_key:read";
    "webhook:read";
    "settings:read";
    "activity:read" ].

Definition VIEWER : RoleDef := mkRole "viewer" "Viewer"
  [ "project:read";
    "member:list";
    "query:read"; "query:execute";
    "database:read";
    "dashboard:read";
    "schedule:read";
    "settings:read";
    "activity:read" ].

Definition CUSTOM : RoleDef := mkRole "custom" "Custom" [].

(** [Object.values(ProjectMember.ROLES)], in declaration order. *)
Definition ROLES : list RoleDef := [ADMIN; EDITOR; VIEWER; CUSTOM].

(** [getRolePermissions]: the permission list of the role whose key is
    [r], the empty list when no role has that key. *)
Definition getRolePermissions (r : string) : list string :=
  match List.find (fun d => bool_decide (key d = r)) ROLES with
  | Some d => role_permissions d
  | None => []
  end.

(** The object handed to [patch]/[patchAndFetch].  A field that is absent
    or [undefined] is [None] and leaves the column as it is; a nullable
    column set to [null] is [Some None]. *)
Record Patch : Type := mkPatch {
  p_role : option string;
  p_is_active : option bool;
  p_invited_by : option (option string);
  p_invited_at : option (option string);
  p_joined_at : option (option string);
  p_last_accessed_at : option (option string);
  p_permissions : option (list string);
  p_updated_at : option string
}.

Definition apply_patch (p : Patch) (m : ProjectMember) : ProjectMember :=
  {| id := id m;
     project_id := project_id m;
     user_id := user_id m;
     role := default (role m) (p_role p);
     permissions := default (permissions m) (p_permissions p);
     is_active := default (is_active m) (p_is_active p);
     invited_by := default (invited_by m) (p_invited_by p);
     invited_at := default (invited_at m) (p_invited_at p);
     joined_at := default (joined_at m) (p_joined_at p);
     last_accessed_at := default (last_accessed_at m) (p_last_accessed_at p);
     created_at := created_at m;
     updated_at := default (updated_at m) (p_updated_at p) |}.

(** [.where('project_id', p).where('user_id', u)] *)
Definition for_member (p u : string) (m : ProjectMember) : bool :=
  bool_decide (project_id m = p) && bool_decide (user_id m = u).

(** [.where('project_id', p).where('role', 'admin').where('is_active', true)] *)
Definition active_admin (p : string) (m : ProjectMember) : bool :=
  bool_decide (project_id m = p) && bool_decide (role m = key ADMIN) && is_active m.

Definition where_ (f : ProjectMember -> bool) (t : table) : list ProjectMember :=
  List.filter f t.

(** [query().where(...).patch(obj)]: the rows selected by [f] are patched,
    the others stay; the call resolves to the number of rows selected. *)
Definition patch_where (f : ProjectMember -> bool) (p : Patch) (t : table) : table :=
  List.map (fun m => if f m then apply_patch p m else m) t.

Definition affected (f : ProjectMember -> bool) (t : table) : nat :=
  length (where_ f t).

(** [getByProjectAndUser]: the first row of the pair, [None] when there
    is none.  The query has no [is_active] filter. *)
Definition getByProjectAndUser (p u : string) (t : table) : option ProjectMember :=
  head (where_ (for_member p u) t).

(** [member?.role === ProjectMember.ROLES.ADMIN.key] *)
Definition role_is_admin (m : option ProjectMember) : bool :=
  match m with
  | Some r => bool_decide (role r = key ADMIN)
  | None => false
  end.

Definition AlreadyMember : error := Error "User is already a member of this project".
Definition LastAdminRemove : error := Error "Cannot remove the last admin from a project".
Definition LastAdminChange : error := Error "Cannot change the role of the last admin".

(** What objection throws when [patchAndFetch] is called on a query that
    was not started from a model instance. *)
Definition NotAnInstanceOperation : error :=
  Error "patchAndFetch can only be called for instance operations".

(** What objection throws when the object of an insert or a patch fails
    the json schema: here, a [role] outside the schema's [enum]. *)
Definition ValidationError : error :=
  Error "role: must be equal to one of the allowed values".

(** The [enum] of [role] in the json schema:
    [Object.values(this.ROLES).map(r => r.key)]. *)
Definition role_enum : list string := key <$> ROLES.

(** [role === ROLES.CUSTOM.key ? customPermissions : undefined] *)
Definition permissions_arg (r : string) (customPermissions : list string)
  : option (list string) :=
  if bool_decide (r = key CUSTOM) then Some customPermissions else None.

(** [removeMember(projectId, userId)]; [now] is the clock reading of
    [new Date().toISOString()]. *)
Definition removeMember (projectId userId now : string) (t : table)
  : result (nat * table) :=
  let admins := where_ (active_admin projectId) t in
  let member := getByProjectAndUser projectId userId t in
  if role_is_admin member && (length admins <=? 1)%nat then Err LastAdminRemove
  else
    let sel := for_member projectId userId in
    Ok (affected sel t,
        patch_where sel
          {| p_role := None; p_is_active := Some false; p_invited_by := None;
             p_invited_at := None; p_joined_at := None; p_last_accessed_at := None;
             p_permissions := None; p_updated_at := Some now |} t).

(** [this.query().where(...).where(...).patchAndFetch(obj)]: the query
    was started from the class, not from an instance, and objection
    refuses [patchAndFetch] on it before any statement is sent. *)
Definition static_patchAndFetch (f : ProjectMember -> bool) (p : Patch) (t : table)
  : result (option ProjectMember * table) :=
  Err NotAnInstanceOperation.

(** [updateMember(projectId, userId, role, customPermissions)]: the
    guard of the last admin, then the patch, which is a [patchAndFetch]
    on a static query. *)
Definition updateMember (projectId userId r : string)
    (customPermissions : list string) (now : string) (t : table)
  : result (option ProjectMember * table) :=
  let blocked :=
    if bool_decide (r <> key ADMIN) then
      let admins := where_ (active_admin projectId) t in
      let member := getByProjectAndUser projectId userId t in
      role_is_admin member && (length admins <=? 1)%nat
    else false in
  if blocked then Err LastAdminChange
  else
    static_patchAndFetch (for_member projectId userId)
      {| p_role := Some r; p_is_active := None; p_invited_by := None;
         p_invited_at := None; p_joined_at := None; p_last_accessed_at := None;
         p_permissions := permissions_arg r customPermissions;
         p_updated_at := Some now |} t.

(** The object handed to [insert] by [addMember]; [permissions] may be
    [undefined]. *)
Record NewMember : Type := mkNew {
  n_id : string;
  n_project_id : string;
  n_user_id : string;
  n_role : string;
  n_permissions : option (list string);
  n_invited_by : option string;
  n_invited_at : option string
}.

(** [$beforeInsert]: the id is kept (a uuid is a non-empty string), the
    timestamps are stamped, and a missing or empty permission list is
    replaced by the role's list from [ROLES]. *)
Definition beforeInsert (n : NewMember) (now : string) : ProjectMember :=
  {| id := n_id n;
     project_id := n_project_id n;
     user_id := n_user_id n;
     role := n_role n;
     permissions :=
       match n_permissions n with
       | Some (x :: l) => x :: l
       | _ => getRolePermissions (n_role n)
       end;
     is_active := true;
     invited_by := n_invited_by n;
     invited_at := n_invited_at n;
     joined_at := None;
     last_accessed_at := None;
     created_at := now;
     updated_at := now |}.

(** [addMember(projectId, userId, role, invitedBy, customPermissions)];
    [fresh] is the value of [uuidv4()] and [now] the clock reading.
    [existingMember] is a fetched row, so that the test
    [existingMember.is_active] reads the property through the mappers.
    The patch of the existing row and the insert of a new one are
    validated against the json schema before anything is written. *)
Definition addMember (projectId userId r : string) (invitedBy : option string)
    (customPermissions : list string) (fresh now : string) (t : table)
  : result (ProjectMember * table) :=
  match getByProjectAndUser projectId userId t with
  | Some existingMember =>
      if Mappers.truthy (Mappers.fetched "is_active" (is_active existingMember))
      then Err AlreadyMember
      else if bool_decide (r ∈ role_enum) then
        let p := {| p_role := Some r; p_is_active := Some true;
                    p_invited_by := Some invitedBy; p_invited_at := Some (Some now);
                    p_joined_at := Some None; p_last_accessed_at := Some None;
                    p_permissions := permissions_arg r customPermissions;
                    p_updated_at := Some now |} in
        Ok (apply_patch p existingMember,
            patch_where (fun m => bool_decide (id m = id existingMember)) p t)
      else Err ValidationError
  | None =>
      if bool_decide (r ∈ role_enum) then
        let m := beforeInsert
          {| n_id := fresh; n_project_id := projectId; n_user_id := userId;
             n_role := r; n_permissions := permissions_arg r customPermissions;
             n_invited_by := invitedBy; n_invited_at := Some now |} now in
        Ok (m, (t ++ [m])%list)
      else Err ValidationError
  end.

(** Instance [hasPermission(permission)]. *)
Definition hasPermission (m : ProjectMember) (permission : string) : bool :=
  if bool_decide (role m = key ADMIN) then true
  else bool_decide (permission ∈ permissions m).

(** ** Derived notions used in the statements *)

(** Number of active admins of a project. *)
Definition admin_count (p : string) (t : table) : nat :=
  length (where_ (active_admin p) t).

(** The rows of a (project, user) pair. *)
Definition rows_of (p u : string) (t : table) : list ProjectMember :=
  where_ (for_member p u) t.

(** The pair identifying a membership. *)
Definition pair_of (m : ProjectMember) : string * string := (project_id m, user_id m).

(** The table constraints: [id] is the primary key and there is one row
    per (project, user) pair. *)
Definition wf (t : table) : Prop :=
  NoDup (id <$> t) /\ NoDup (pair_of <$> t).

#[global] Instance wf_dec t : Decision (wf t).
Proof. unfold wf. apply _. Defined.

(** [u] is the only active admin of [p]. *)
Definition sole_active_admin (p u : string) (t : table) : Prop :=
  exists m, m ∈ t /\ project_id m = p /\ user_id m = u /\
            role m = key ADMIN /\ is_active m = true /\ admin_count p t = 1%nat.

(** A mutation of the membership table. *)
Inductive op : Type :=
  | Remove (projectId userId now : string)
  | Update (projectId userId r : string) (customPermissions : list string) (now : string).

(** One call; a call that throws writes nothing. *)
Definition step (o : op) (t : table) : table :=
  match o with
  | Remove p u now =>
      match removeMember p u now t with Ok (_, t') => t' | Err _ => t end
  | Update p u r cp now =>
      match updateMember p u r cp now t with Ok (_, t') => t' | Err _ => t end
  end.

Definition run (ops : list op) (t : table) : table :=
  fold_left (fun acc o => step o acc) ops t.

(** A row as [removeMember] leaves it: inactive, with a new
    [updated_at]. *)
Definition deactivated (now : string) (m : ProjectMember) : ProjectMember :=
  {| id := id m; project_id := project_id m; user_id := user_id m;
     role := role m; permissions := permissions m; is_active := false;
     invited_by := invited_by m; invited_at := invited_at m;
     joined_at := joined_at m; last_accessed_at := last_accessed_at m;
     created_at := created_at m; updated_at := now |}.

(** ** Scenario data: members of project ["P"] *)

Definition member_row (i u r : string) (active : bool) : ProjectMember :=
  {| id := i; project_id := "P"; user_id := u; role := r;
     permissions := getRolePermissions r; is_active := active;
     invited_by := None; invited_at := None; joined_at := None;
     last_accessed_at := None;
     created_at := "2024-01-01T00:00:00.000Z";
     updated_at := "2024-01-01T00:00:00.000Z" |}.

(** Admin A and editor B, both active. *)
Definition t_AB : table :=
  [member_row "m1" "A" "admin" true; member_row "m2" "B" "editor" true].

(** Admins A and C, both active. *)
Definition t_AC_active : table :=
  [member_row "m1" "A" "admin" true; member_row "m3" "C" "admin" true].

(** Admin A and viewer V, both active. *)
Definition t_AV : table :=
  [member_row "m1" "A" "admin" true; member_row "m4" "V" "viewer" true].


End Member.

(** * Overlapping removals *)

Module Race.
Import Member.

(** How far a call of [removeMember] has got.  The function is [async]
    and sends three statements to the database, each behind an [await]:
    the query for the active admins, the lookup of the member, and the
    patch.  Between two of them the process serves other requests.  The
    guard is evaluated after the second on the values the first two
    returned, and no transaction spans the three. *)
Inductive progress : Type :=
  | Called
  | HasAdmins (admins : list ProjectMember)
  | HasMember (admins : list ProjectMember) (member : option ProjectMember)
  | Settled (r : result nat).

Record call : Type := mkCall {
  projectId : string;
  userId : string;
  now : string;
  at_ : progress
}.

Definition removal (p u now : string) : call := mkCall p u now Called.

Definition moved (c : call) (a : progress) : call :=
  mkCall (projectId c) (userId c) (now c) a.

(** The next statement of the call, run on the table as it is at that
    moment.  A settled call does nothing more. *)
Definition advance (c : call) (t : table) : call * table :=
  match at_ c with
  | Called =>
      (moved c (HasAdmins (where_ (active_admin (projectId c)) t)), t)
  | HasAdmins admins =>
      (moved c (HasMember admins (getByProjectAndUser (projectId c) (userId c) t)), t)
  | HasMember admins member =>
      if role_is_admin member && (length admins <=? 1)%nat
      then (moved c (Settled (Err LastAdminRemove)), t)
      else
        let sel := for_member (projectId c) (userId c) in
        (moved c (Settled (Ok (affected sel t))),
         patch_where sel
           {| p_role := None; p_is_active := Some false; p_invited_by := None;
              p_invited_at := None; p_joined_at := None; p_last_accessed_at := None;
              p_permissions := None; p_updated_at := Some (now c) |} t)
  | Settled _ => (c, t)
  end.

(** The calls in flight and the table. *)
Definition world : Type := list call * table.

(** The call at position [i] runs its next statement. *)
Definition tick (i : nat) (w : world) : world :=
  match w.1 !! i with
  | Some c => let '(c', t') := advance c w.2 in (<[i := c']> w.1, t')
  | None => w
  end.

(** The calls take turns in the order of [schedule]. *)
Definition interleave (schedule : list nat) (calls : list call) (t : table) : world :=
  fold_left (fun w i => tick i w) schedule (calls, t).

End Race.

(** * Role checks *)

Module Authz.
Import Member.

(** The [roleHierarchy] object literal of [authorizeProject] and of
    [BaseModel.checkPermission]: it has the keys user, editor and admin.
    Reading any other key gives [undefined], here [None]. *)
Definition roleHierarchy (r : string) : option Z :=
  if bool_decide (r = "user") then Some 1%Z
  else if bool_decide (r = "editor") then Some 2%Z
  else if bool_decide (r = "admin") then Some 3%Z
  else None.

(** JavaScript [a < b] and [a >= b] on numbers: [undefined] converts to
    NaN and every comparison with NaN is false. *)
Definition js_lt (a b : option Z) : bool :=
  match a, b with
  | Some x, Some y => (x <? y)%Z
  | _, _ => false
  end.

Definition js_ge (a b : option Z) : bool :=
  match a, b with
  | Some x, Some y => (y <=? x)%Z
  | _, _ => false
  end.

(** What the middleware does with the request. *)
Inductive outcome : Type :=
  | Next (projectRole : string)
  | Status (code : Z) (message : string).

(** [authorizeProject(requiredRole)] applied to a request with
    [req.params.projectId = projectId] and [req.user.id = userId].  The
    routes that mount the middleware name their parameter [:id] or have
    none, so that through them [projectId] is [None].  The membership is
    read through [Project.relatedQuery('members')], by project and
    user, with no [is_active] filter; whatever the [try] block throws is
    answered by the [catch] block with the status 500. *)
Definition authorizeProject (requiredRole : string) (projectId : option string)
    (userId : string) (members : table) : outcome :=
  match projectId with
  | None => Status 400 "Project ID is required"
  | Some p =>
      if bool_decide (p = "") then Status 400 "Project ID is required"
      else
        match Relations.relatedQuery Relations.Project "members" with
        | Err _ => Status 500 "Error authorizing request"
        | Ok _ =>
            match getByProjectAndUser p userId members with
            | None => Status 403 "You do not have access to this project"
            | Some userProject =>
                if js_lt (roleHierarchy (role userProject)) (roleHierarchy requiredRole)
                then Status 403 ("Insufficient permissions. Required role: " +:+ requiredRole)
                else Next (role userProject)
            end
        end
  end.

Definition granted (o : outcome) : bool :=
  match o with Next _ => true | Status _ _ => false end.

(** A row of [user_projects], the relation [checkPermission] reads. *)
Record UserProject : Type := mkUserProject {
  up_user_id : string;
  up_project_id : string;
  up_role : string
}.

(** [BaseModel.checkPermission(userId, projectId, requiredRole)], a
    static method: [this] is the model class it is called on.  The row
    is read through [this.relatedQuery('user_projects')]; nothing
    catches what that throws. *)
Definition checkPermission (this : Relations.Model) (userId : option string)
    (projectId requiredRole : string) (user_projects : list UserProject)
  : result bool :=
  match userId with
  | None => Ok false
  | Some u =>
      if bool_decide (u = "") then Ok false
      else
        match Relations.relatedQuery this "user_projects" with
        | Err e => Err e
        | Ok _ =>
            match List.find (fun x => bool_decide (up_user_id x = u) &&
                                      bool_decide (up_project_id x = projectId))
                            user_projects with
            | None => Ok false
            | Some userProject =>
                Ok (js_ge (roleHierarchy (up_role userProject))
                          (roleHierarchy requiredRole))
            end
        end
  end.

(** The order the specification gives: viewer = 0 < user = 1 <
    editor = 2 < admin = 3. *)
Definition spec_rank (r : string) : option Z :=
  if bool_decide (r = "viewer") then Some 0%Z
  else if bool_decide (r = "user") then Some 1%Z
  else if bool_decide (r = "editor") then Some 2%Z
  else if bool_decide (r = "admin") then Some 3%Z
  else None.

(** [hasRole] by the specification: the member's rank is at least the
    required rank. *)
Definition spec_hasRole (memberRole requiredRole : string) : bool :=
  match spec_rank memberRole, spec_rank requiredRole with
  | Some x, Some y => (y <=? x)%Z
  | _, _ => false
  end.

End Authz.

(** * ProjectDatabase *)

Module Databases.

(** [connection_config]: host, database, username and password are
    required by the schema, port is optional, ssl defaults to false. *)
Record ConnectionConfig : Type := mkConnectionConfig {
  host : string;
  port : option Z;
  database : string;
  username : string;
  password : string;
  ssl : bool
}.

(** One row of [project_databases]. *)
Record ProjectDatabase : Type := mkDatabase {
  id : string;
  project_id : string;
  name : string;
  type : string;
  is_primary : bool;
  is_active : bool;
  connection_config : ConnectionConfig;
  created_by : string
}.

Definition table : Type := list ProjectDatabase.

(** The [enum] of [type] in the json schema, in the migration and in the
    validator of the POST handler. *)
Definition type_enum : list string :=
  ["postgresql"; "mysql"; "mongodb"; "sqlite"; "mssql"].

(** The [ssl] member of a driver configuration. *)
Inductive ssl_option : Type :=
  | SslFalse
  | SslUndefined
  | SslRejectUnauthorizedFalse.

(** The [connection] member of the configuration built for a driver. *)
Inductive connection : Type :=
  | HostConnection (host : string) (port : Z) (database user password : string)
                   (ssl : ssl_option)
  | UrlConnection (url : string) (useNewUrlParser useUnifiedTopology ssl : bool).

Record DriverConfig : Type := mkDriverConfig {
  client : string;
  conn : connection;
  pool : option (Z * Z)
}.

(** [config.port || d]: an absent port and the port 0 give the default. *)
Definition port_or (p : option Z) (d : Z) : Z :=
  match p with
  | Some n => if (n =? 0)%Z then d else n
  | None => d
  end.

Definition Unsupported (ty : string) : error :=
  Error ("Unsupported database type: " +:+ ty).

Section Config.

(** The built-in [encodeURIComponent]. *)
Variable encodeURIComponent : string -> string.

(** [getConnectionConfig()]: the [switch] has the cases postgresql, mysql
    and mongodb; every other type reaches [default] and throws. *)
Definition getConnectionConfig (this : ProjectDatabase) : result DriverConfig :=
  let config := connection_config this in
  let ty := type this in
  if bool_decide (ty = "postgresql") then
    Ok {| client := "pg";
          conn := HostConnection (host config) (port_or (port config) 5432)
                    (database config) (username config) (password config)
                    (if ssl config then SslRejectUnauthorizedFalse else SslFalse);
          pool := Some (1, 5)%Z |}
  else if bool_decide (ty = "mysql") then
    Ok {| client := "mysql2";
          conn := HostConnection (host config) (port_or (port config) 3306)
                    (database config) (username config) (password config)
                    (if ssl config then SslRejectUnauthorizedFalse else SslUndefined);
          pool := None |}
  else if bool_decide (ty = "mongodb") then
    Ok {| client := "mongodb";
          conn := UrlConnection
                    ("mongodb://" +:+ username config +:+ ":" +:+
                     encodeURIComponent (password config) +:+ "@" +:+ host config +:+
                     ":" +:+ pretty (port_or (port config) 27017) +:+ "/" +:+
                     database config +:+ "?authSource=admin")
                    true true (ssl config);
          pool := None |}
  else Err (Unsupported ty).

End Config.

(** The port of a built configuration, when its shape has one. *)
Definition config_port (c : DriverConfig) : option Z :=
  match conn c with
  | HostConnection _ p _ _ _ _ => Some p
  | UrlConnection _ _ _ _ => None
  end.

(** ** The store and its transaction

    Statements issued through [Model.query()] run on the default
    connection and are committed at once.  Statements issued through
    [Model.query(trx)] work on the transaction's copy of the table, which
    [commit] publishes and [rollback] drops.  A committed change is also
    seen by the open transaction.  Row locks are not modelled. *)
Record store : Type := mkStore {
  committed : table;
  working : option table
}.

Inductive handle : Type := Default | Trx.

Definition write (h : handle) (f : table -> table) (s : store) : store :=
  match h with
  | Default => {| committed := f (committed s); working := f <$> working s |}
  | Trx => {| committed := committed s; working := f <$> working s |}
  end.

Definition startTransaction (s : store) : store :=
  {| committed := committed s; working := Some (committed s) |}.

Definition commit (s : store) : store :=
  {| committed := default (committed s) (working s); working := None |}.

Definition rollback (s : store) : store :=
  {| committed := committed s; working := None |}.

Definition set_primary (b : bool) (r : ProjectDatabase) : ProjectDatabase :=
  {| id := id r; project_id := project_id r; name := name r; type := type r;
     is_primary := b; is_active := is_active r;
     connection_config := connection_config r; created_by := created_by r |}.

(** [.where('project_id', p).where('is_primary', true).patch({ is_primary: false })] *)
Definition clear_primary (p : string) (t : table) : table :=
  List.map (fun r => if bool_decide (project_id r = p) && is_primary r
                     then set_primary false r else r) t.

(** The same with [.where('id', '!=', i)]. *)
Definition clear_primary_except (p i : string) (t : table) : table :=
  List.map (fun r => if bool_decide (project_id r = p) &&
                        negb (bool_decide (id r = i)) && is_primary r
                     then set_primary false r else r) t.

(** [$beforeInsert]: the clearing query is [this.constructor.query()],
    on the default connection. *)
Definition beforeInsert (this : ProjectDatabase) (s : store) : store :=
  if is_primary this then write Default (clear_primary (project_id this)) s else s.

Definition TypeError : error :=
  Error "Cannot read properties of undefined (reading 'is_primary')".

(** [$beforeUpdate]; [before] is the value of [this.$before], [None] when
    that property is undefined.  With [this.is_primary] true the test
    [this.is_primary !== this.$before.is_primary] holds when the earlier
    flag is not true.  The clearing query runs on the default
    connection. *)
Definition beforeUpdate (this : ProjectDatabase) (before : option ProjectDatabase)
    (s : store) : result store :=
  if is_primary this then
    match before with
    | None => Err TypeError
    | Some b =>
        if negb (is_primary b)
        then Ok (write Default (clear_primary_except (project_id this) (id this)) s)
        else Ok s
    end
  else Ok s.

(** An update of the row [id this] to the contents [this], issued on
    [h]: the hook runs first, then the row is written. *)
Definition update (h : handle) (this : ProjectDatabase)
    (before : option ProjectDatabase) (s : store) : result store :=
  match beforeUpdate this before s with
  | Err e => Err e
  | Ok s' =>
      Ok (write h (List.map (fun r => if bool_decide (id r = id this) then this else r)) s')
  end.

(** The primaries of a project. *)
Definition primaries (p : string) (t : table) : list ProjectDatabase :=
  List.filter (fun r => bool_decide (project_id r = p) && is_primary r) t.

(** At most one primary per project. *)
Definition one_primary (t : table) : Prop :=
  forall p, (length (primaries p t) <= 1)%nat.

(** ** Scenario data *)

Definition cc0 : ConnectionConfig :=
  {| host := "db.example.org"; port := None; database := "app";
     username := "svc"; password := "secret"; ssl := false |}.

Definition D1 : ProjectDatabase :=
  {| id := "d1"; project_id := "P"; name := "main"; type := "postgresql";
     is_primary := true; is_active := true; connection_config := cc0;
     created_by := "A" |}.

Definition D2 : ProjectDatabase :=
  {| id := "d2"; project_id := "P"; name := "reports"; type := "mssql";
     is_primary := false; is_active := true; connection_config := cc0;
     created_by := "A" |}.

Definition D3 : ProjectDatabase :=
  {| id := "d3"; project_id := "P"; name := "files"; type := "sqlite";
     is_primary := false; is_active := true; connection_config := cc0;
     created_by := "A" |}.

Definition s_D1D2 : store := {| committed := [D1; D2]; working := None |}.

End Databases.

(** * The connection cache *)

Module Broker.
Import Databases.

(** A knex instance as [getDbConnection] configures it.  [hid] stands for
    the identity of the JavaScript object: two instances are the same
    object when their [hid] agree. *)
Record Knex : Type := mkKnex {
  hid : nat;
  k_client : string;
  k_connection : ConnectionConfig;
  k_ssl : ssl_option;
  k_pool : Z * Z
}.

#[global] Instance ssl_option_eq_dec : EqDecision ssl_option.
Proof. solve_decision. Defined.
#[global] Instance ConnectionConfig_eq_dec : EqDecision ConnectionConfig.
Proof. solve_decision. Defined.
#[global] Instance Knex_eq_dec : EqDecision Knex.
Proof. solve_decision. Defined.

(** What lies outside the process: the rows of [project_databases], the
    answer of the target database to [SELECT 1] (the message of the
    error it raises, if any) and whether [destroy()] of an instance
    throws (with which message). *)
Record env : Type := mkEnv {
  databases : table;
  select1 : ProjectDatabase -> option string;
  destroy_error : Knex -> option string
}.

(** The module-level [dbConnections] map, the supply of object
    identities, and the instances on which [destroy()] has been called. *)
Record state : Type := mkState {
  dbConnections : gmap string Knex;
  next_hid : nat;
  destroy_called : gset nat
}.

Definition cacheKey (projectId databaseId : string) : string :=
  projectId +:+ ":" +:+ databaseId.

(** [ProjectDatabase.query().findById(databaseId).where('project_id', projectId)] *)
Definition findById (databaseId projectId : string) (t : table) : option ProjectDatabase :=
  List.find (fun r => bool_decide (id r = databaseId) &&
                      bool_decide (project_id r = projectId)) t.

Definition DatabaseNotFound : error := Error "Database not found or access denied".
Definition ConnectionFailed (msg : string) : error :=
  Error ("Failed to connect to database: " +:+ msg).

(** The TypeError of reading [.ssl] of [undefined]. *)
Definition ConfigUndefined : error :=
  Error "Cannot read properties of undefined (reading 'ssl')".

(** The [client] names [knex()] knows, with their aliases. *)
Definition knex_clients : list string :=
  [ "mssql"; "mysql"; "mysql2"; "oracledb"; "postgres"; "pgnative"; "redshift";
    "sqlite3"; "cockroachdb"; "better-sqlite3"; "pg"; "postgresql"; "sqlite" ].

Definition UnknownClient (client : string) : error :=
  Error ("knex: Unknown configuration option 'client' value " +:+ client +:+
         ". Note that it is case-sensitive, check documentation for supported values.").

(** [knex({ client, connection: { ...config, ssl: config.ssl ? {...} : false },
    pool: { min: 0, max: 7 } })]; it throws on a client it does not
    know. *)
Definition knex (i : nat) (client : string) (config : ConnectionConfig) : result Knex :=
  if bool_decide (client ∈ knex_clients) then
    Ok {| hid := i;
          k_client := client;
          k_connection := config;
          k_ssl := if ssl config then SslRejectUnauthorizedFalse else SslFalse;
          k_pool := (0, 7)%Z |}
  else Err (UnknownClient client).

(** [getDbConnection(projectId, databaseId)].  [database] is a fetched
    row: [database.connection_config] is read through the mappers, and
    reading [.ssl] of it throws when it is [undefined], while the
    argument of [knex()] is being built.  [database.type] keeps its
    name. *)
Definition getDbConnection (e : env) (projectId databaseId : string) (s : state)
  : result Knex * state :=
  let key := cacheKey projectId databaseId in
  match dbConnections s !! key with
  | Some cached => (Ok cached, s)
  | None =>
      match findById databaseId projectId (databases e) with
      | None => (Err DatabaseNotFound, s)
      | Some database =>
          match Mappers.fetched "connection_config" (connection_config database) with
          | None => (Err ConfigUndefined, s)
          | Some config =>
              match knex (next_hid s) (type database) config with
              | Err thrown => (Err thrown, s)
              | Ok connection =>
                  match select1 e database with
                  | Some msg =>
                      let s' := {| dbConnections := dbConnections s;
                                   next_hid := S (next_hid s);
                                   destroy_called :=
                                     {[hid connection]} ∪ destroy_called s |} in
                      match destroy_error e connection with
                      | Some thrown => (Err (Error thrown), s')
                      | None => (Err (ConnectionFailed msg), s')
                      end
                  | None =>
                      (Ok connection,
                       {| dbConnections := <[key := connection]> (dbConnections s);
                          next_hid := S (next_hid s);
                          destroy_called := destroy_called s |})
                  end
              end
          end
      end
  end.

(** The body of the loop of [cleanupDbConnections]: the entry is deleted
    after [destroy()] returns; when [destroy()] throws, the error is
    logged and the entry stays. *)
Definition cleanup_entry (e : env) (key : string) (connection : Knex) (s : state) : state :=
  match destroy_error e connection with
  | None =>
      {| dbConnections := delete key (dbConnections s);
         next_hid := next_hid s;
         destroy_called := {[hid connection]} ∪ destroy_called s |}
  | Some _ =>
      {| dbConnections := dbConnections s;
         next_hid := next_hid s;
         destroy_called := {[hid connection]} ∪ destroy_called s |}
  end.

(** [cleanupDbConnections()]: one pass over the entries of the map. *)
Definition cleanupDbConnections (e : env) (s : state) : state :=
  map_fold (cleanup_entry e) s (dbConnections s).

Definition empty_state : state :=
  {| dbConnections := ∅; next_hid := 0; destroy_called := ∅ |}.

(** ** Scenario data *)

(** D1 and D2 are registered for P, the target databases answer the
    probe, and [destroy()] returns. *)
Definition env_ok : env :=
  {| databases := [D1; D2]; select1 := fun _ => None; destroy_error := fun _ => None |}.

End Broker.

(** * Query execution *)

Module Gateway.
Import Databases.

(** What [dbConnection.raw] resolves to; a row is kept as its JSON text. *)
Record QueryResult : Type := mkQueryResult {
  rowCount : option Z;
  rows : option (list string);
  command : option string
}.

(** [result_metadata] of a history entry. *)
Inductive metadata : Type :=
  | Succeeded (row_count execution_time_ms : Z) (is_ai_generated : bool)
  | Errored (error_message : string) (execution_time_ms : Z) (is_ai_generated : bool).

(** A row of [query_history]; [owner] is the argument of [.for(...)]. *)
Record QueryHistoryEntry : Type := mkEntry {
  owner : option string;
  h_user_id : string;
  h_database_id : string;
  h_query : string;
  h_params : option (list string);
  result_metadata : metadata
}.

(** The request: the body fields, the authenticated user, the path
    parameter [req.params.project_id] and whether [validationResult]
    found no error. *)
Record request : Type := mkRequest {
  query : string;
  project_id : string;
  database_id : string;
  params : option (list string);
  is_ai_generated : option bool;
  user_id : string;
  path_project_id : option string;
  valid : bool
}.

Inductive data : Type :=
  | Rows (r : list string)
  | Whole (r : QueryResult)
  | CommandSummary (command : option string) (rowCount : Z).

(** The answers of the handler; the [code] member of the 500 body, copied
    from the error object, is left out. *)
Inductive response : Type :=
  | Json200 (d : data) (execution_time_ms row_count : Z)
  | Json400
  | Json500 (error_message : string).

(** The target databases, seen from the handler: the environment of
    the connection cache and what [raw(query, params)] gives on an
    instance. *)
Record env : Type := mkEnv {
  broker : Broker.env;
  raw : Broker.Knex -> string -> list string -> result QueryResult
}.

Record state : Type := mkState {
  connections : Broker.state;
  query_history : list QueryHistoryEntry
}.

(** [result.rowCount || result.rows?.length || 0] *)
Definition row_count_of (r : QueryResult) : Z :=
  match rowCount r with
  | Some n => if (n =? 0)%Z
              then match rows r with Some l => Z.of_nat (length l) | None => 0%Z end
              else n
  | None => match rows r with Some l => Z.of_nat (length l) | None => 0%Z end
  end.

Definition is_space (a : ascii) : bool :=
  let n := nat_of_ascii a in
  (Nat.eqb n 32 || Nat.leb 9 n && Nat.leb n 13)%bool.

Fixpoint drop_space (l : list ascii) : list ascii :=
  match l with
  | a :: l' => if is_space a then drop_space l' else l
  | [] => []
  end.

Definition lower (a : ascii) : ascii :=
  let n := nat_of_ascii a in
  if (Nat.leb 65 n && Nat.leb n 90)%bool then ascii_of_nat (n + 32) else a.

(** [query.trim().toLowerCase()] on ASCII text. *)
Definition trim_lower (q : string) : string :=
  String.string_of_list_ascii
    (List.map lower (rev (drop_space (rev (drop_space (String.list_ascii_of_string q)))))).

(** The prefix test that chooses the shape of [data]. *)
Definition is_read_query (q : string) : bool :=
  let t := trim_lower q in
  (String.prefix "select" t || String.prefix "show" t ||
   String.prefix "describe" t || String.prefix "explain" t)%bool.

Definition data_of (q : string) (r : QueryResult) : data :=
  if is_read_query q then
    match rows r with Some l => Rows l | None => Whole r end
  else
    CommandSummary (command r)
      (match rowCount r with Some n => n | None => 0%Z end).

(** [error.message || 'Failed to execute query'] *)
Definition message_of (e : error) : string :=
  match e with
  | Error m => if bool_decide (m = "") then "Failed to execute query" else m
  end.

Definition raw_message (e : error) : string :=
  match e with Error m => m end.

(** The object inserted into [query_history] after the query has run. *)
Definition success_entry (req : request) (startTime t1 : Z) (result : QueryResult)
  : QueryHistoryEntry :=
  let ps := default [] (params req) in
  {| owner := Some (project_id req);
     h_user_id := user_id req;
     h_database_id := database_id req;
     h_query := query req;
     h_params := match ps with [] => None | _ => Some ps end;
     result_metadata :=
       Succeeded (row_count_of result) (t1 - startTime)
                 (default false (is_ai_generated req)) |}.

(** The object inserted by the [catch] block; its owner is
    [req.params.project_id]. *)
Definition failure_entry (req : request) (startTime now : Z) (caught : error)
  : QueryHistoryEntry :=
  {| owner := path_project_id req;
     h_user_id := user_id req;
     h_database_id := database_id req;
     h_query := query req;
     h_params := params req;
     result_metadata := Errored (raw_message caught) (now - startTime)
                                (default false (is_ai_generated req)) |}.

(** [Project.relatedQuery('query_history').for(owner).insert(entry)],
    [owner] being a field of the entry. *)
Definition insert_history (entry : QueryHistoryEntry) (s : state) : result state :=
  match Relations.relatedQuery Relations.Project "query_history" with
  | Err thrown => Err thrown
  | Ok _ => Ok {| connections := connections s;
                  query_history := query_history s ++ [entry] |}
  end.

(** The [catch] block of the handler: the failed query is logged inside
    its own [try]; an error of that insert is printed and dropped; the
    answer carries the error that was caught.  [now] is [Date.now()]. *)
Definition on_error (req : request) (startTime now : Z)
    (caught : error) (s : state) : response * state :=
  let entry := failure_entry req startTime now caught in
  let s' :=
    match insert_history entry s with
    | Ok logged => logged
    | Err _ => s
    end in
  (Json500 (message_of caught), s').

(** The handler of POST /execute.  [startTime], [t1] and [t2] are the
    readings of [Date.now()] at entry, after the query and in the
    [catch] block. *)
Definition execute (e : env) (req : request) (startTime t1 t2 : Z) (s : state)
  : response * state :=
  if negb (valid req) then (Json400, s)
  else
    let ps := default [] (params req) in
    match Broker.getDbConnection (broker e) (project_id req) (database_id req)
            (connections s) with
    | (Err caught, c) =>
        on_error req startTime t2 caught
          {| connections := c; query_history := query_history s |}
    | (Ok dbConnection, c) =>
        let s1 := {| connections := c; query_history := query_history s |} in
        match raw e dbConnection (query req) ps with
        | Err caught => on_error req startTime t2 caught s1
        | Ok result =>
            let executionTime := (t1 - startTime)%Z in
            let entry := success_entry req startTime t1 result in
            match insert_history entry s1 with
            | Err caught => on_error req startTime t2 caught s1
            | Ok logged =>
                (Json200 (data_of (query req) result) executionTime (row_count_of result),
                 logged)
            end
        end
    end.

(** ** Scenario data *)

Definition one_row : QueryResult :=
  {| rowCount := Some 1%Z; rows := Some ["{ ?column?: 1 }"]; command := Some "SELECT" |}.

Definition req0 : request :=
  {| query := "SELECT 1"; project_id := "P"; database_id := "d1"; params := None;
     is_ai_generated := None; user_id := "A"; path_project_id := None;
     valid := true |}.

(** D1 is registered for P and reachable, and [SELECT 1] gives one
    row on it. *)
Definition env_up : env :=
  {| broker := Broker.env_ok;
     raw := fun _ _ _ => Ok one_row |}.

Definition s0 : state :=
  {| connections := Broker.empty_state; query_history := [] |}.

End Gateway.

(** * ProjectMember: permission checks and the permission catalogue *)

Module MemberStatic.
Import Member.

(** Instance [hasAnyPermission(permissions)] called with an array. *)
Definition hasAnyPermission (m : ProjectMember) (ps : list string) : bool :=
  if bool_decide (role m = key ADMIN) then true
  else existsb (fun p => bool_decide (p ∈ permissions m)) ps.

(** The [permission] argument of the static check: a string or an array. *)
Inductive permission_arg : Type :=
  | Single (p : string)
  | Several (ps : list string).

(** [Array.isArray(permission) ? permission : [permission]] *)
Definition as_array (a : permission_arg) : list string :=
  match a with
  | Single p => [p]
  | Several ps => ps
  end.

(** Static [hasPermission(projectId, userId, permission)]: the first
    active row of the pair decides. *)
Definition hasPermission (projectId userId : string) (permission : permission_arg)
    (t : table) : bool :=
  match head (where_ (fun m => for_member projectId userId m && is_active m) t) with
  | None => false
  | Some member =>
      let ps := as_array permission in
      if bool_decide (role member = key ADMIN) then true
      else existsb (fun p => bool_decide (p ∈ permissions member)) ps
  end.

(** [allPermissions.add(permission)] on a [Set], kept in insertion
    order. *)
Definition set_add (acc : list string) (x : string) : list string :=
  if bool_decide (x ∈ acc) then acc else acc ++ [x].

(** The order of the default [sort()] on strings. *)
Definition str_le (x y : string) : Prop := String.leb x y = true.

#[global] Instance str_le_dec : RelDecision str_le.
Proof. intros x y. unfold str_le. apply _. Defined.

(** [getAllPermissions()] over a role table: the permissions of all
    roles are collected into a set, which is returned as a sorted
    array. *)
Definition getAllPermissionsOf (roles : list RoleDef) : list string :=
  merge_sort str_le
    (fold_left (fun acc r => fold_left set_add (role_permissions r) acc) roles []).

Definition getAllPermissions : list string := getAllPermissionsOf ROLES.

End MemberStatic.

(** * Authentication *)

Module Authn.

(** The fields of a [users] row the middleware reads. *)
Record User : Type := mkUser {
  u_id : string;
  u_is_active : bool
}.

(** [s.split(sep)] for a one-character separator. *)
Fixpoint split (sep : ascii) (s : string) : list string :=
  match s with
  | EmptyString => [EmptyString]
  | String a s' =>
      if bool_decide (a = sep) then EmptyString :: split sep s'
      else match split sep s' with
           | x :: l => String a x :: l
           | [] => [String a EmptyString]
           end
  end.

Inductive outcome : Type :=
  | Next (user : User)
  | Unauthorized (message : string).

(** [authenticate(req, res, next)].  [authorization] is the header,
    [verify] stands for [jwt.verify(token, secret)]: the [id] of the
    decoded payload, or [None] when it throws.  [user] is a fetched
    row, and [user.is_active] reads the property through the
    mappers. *)
Definition authenticate (authorization : option string)
    (verify : string -> option string) (users : list User) : outcome :=
  match authorization with
  | None => Unauthorized "No token provided or invalid token format"
  | Some authHeader =>
      if negb (String.prefix "Bearer " authHeader)
      then Unauthorized "No token provided or invalid token format"
      else
        match split " " authHeader !! 1%nat with
        | None => Unauthorized "No token provided"
        | Some token =>
            if bool_decide (token = "") then Unauthorized "No token provided"
            else
              match verify token with
              | None => Unauthorized "Invalid or expired token"
              | Some i =>
                  match List.find (fun u => bool_decide (u_id u = i)) users with
                  | None => Unauthorized "User not found or account is inactive"
                  | Some user =>
                      if Mappers.truthy (Mappers.fetched "is_active" (u_is_active user))
                      then Next user
                      else Unauthorized "User not found or account is inactive"
                  end
              end
        end
  end.

(** The messages of the 401 answers. *)
Definition messages : list string :=
  [ "No token provided or invalid token format"; "No token provided";
    "Invalid or expired token"; "User not found or account is inactive" ].

(** ** Scenario data *)

Definition users0 : list User := [mkUser "A" true; mkUser "Z" false].

Definition verify0 (token : string) : option string :=
  if bool_decide (token = "tokA") then Some "A"
  else if bool_decide (token = "tokZ") then Some "Z"
  else None.

End Authn.

(** * ProjectDatabase: the primary lookup *)

Module DatabasesMore.
Import Databases.

(** [getPrimaryDatabase(projectId)]: the first primary row of the
    project. *)
Definition getPrimaryDatabase (projectId : string) (t : table) : option ProjectDatabase :=
  head (primaries projectId t).

End DatabasesMore.

(** * What the mappers do to the properties the code reads *)

Module MappersProps.
Import Mappers.

Lemma camelCase_is_active : camelCase "is_active" = "isActive".
Proof. reflexivity. Qed.

Lemma camelCase_connection_config : camelCase "connection_config" = "connectionConfig".
Proof. reflexivity. Qed.

(** [row.is_active] and [row.connection_config] are [undefined] on a
    fetched row. *)
Lemma fetched_is_active {A} (v : A) : fetched "is_active" v = None.
Proof. reflexivity. Qed.

Lemma fetched_connection_config {A} (v : A) : fetched "connection_config" v = None.
Proof. reflexivity. Qed.

(** The properties without an underscore keep their names: [row.id],
    [row.role], [row.permissions] and [row.type] read the column. *)
Lemma fetched_plain {A} (v : A) :
  fetched "id" v = Some v /\ fetched "role" v = Some v /\
  fetched "permissions" v = Some v /\ fetched "type" v = Some v.
Proof. repeat split. Qed.

End MappersProps.

(** * Properties of the membership operations *)

Module MemberProps.
Import Member.

Section Tables.

Implicit Types (t : table) (m : ProjectMember) (p q u : string) (pt : Patch).

Lemma apply_patch_id pt m : id (apply_patch pt m) = id m.
Proof. reflexivity. Qed.

Lemma apply_patch_pair pt m : pair_of (apply_patch pt m) = pair_of m.
Proof. reflexivity. Qed.

Lemma patch_where_length f pt t : length (patch_where f pt t) = length t.
Proof. unfold patch_where. apply List.length_map. Qed.

Lemma patch_where_ids f pt t : id <$> patch_where f pt t = id <$> t.
Proof.
  unfold patch_where. induction t as [|m t IH]; csimpl; [reflexivity|].
  rewrite IH. destruct (f m); reflexivity.
Qed.

Lemma patch_where_pairs f pt t : pair_of <$> patch_where f pt t = pair_of <$> t.
Proof.
  unfold patch_where. induction t as [|m t IH]; csimpl; [reflexivity|].
  rewrite IH. destruct (f m); reflexivity.
Qed.

Lemma patch_where_wf f pt t : wf t -> wf (patch_where f pt t).
Proof.
  intros [Hi Hp]. split.
  - rewrite patch_where_ids. exact Hi.
  - rewrite patch_where_pairs. exact Hp.
Qed.

Lemma patch_where_none f pt t :
  where_ f t = [] -> patch_where f pt t = t.
Proof.
  induction t as [|m t IH]; simpl; [reflexivity|].
  destruct (f m) eqn:E; [discriminate|].
  intros H. rewrite IH by exact H. reflexivity.
Qed.

Lemma for_member_pair p u m : for_member p u m = true <-> pair_of m = (p, u).
Proof.
  unfold for_member, pair_of. rewrite andb_true_iff, !bool_decide_eq_true.
  split; [intros [-> ->]; reflexivity | intros [= -> ->]; auto].
Qed.

Lemma where_elem f t m : m ∈ where_ f t <-> m ∈ t /\ f m = true.
Proof.
  unfold where_. rewrite !list_elem_of_In, List.filter_In. reflexivity.
Qed.

(** With one row per pair, a pair selects at most one row. *)
Lemma rows_of_unique p u t :
  NoDup (pair_of <$> t) ->
  rows_of p u t = [] \/ exists m, rows_of p u t = [m].
Proof.
  unfold rows_of, where_.
  induction t as [|m t IH]; simpl; [auto|].
  intros Hnd. apply NoDup_cons in Hnd as [Hnot Hnd].
  destruct (for_member p u m) eqn:E.
  - right. exists m. f_equal.
    destruct (List.filter (for_member p u) t) as [|m' l] eqn:F; [reflexivity|].
    exfalso. apply Hnot.
    assert (Hm' : m' ∈ where_ (for_member p u) t).
    { unfold where_. rewrite F. left. }
    apply where_elem in Hm' as [Hin Hf].
    apply for_member_pair in E. apply for_member_pair in Hf.
    rewrite E, <- Hf. apply list_elem_of_fmap. exists m'. auto.
  - apply IH, Hnd.
Qed.

Lemma getByProjectAndUser_rows p u t :
  NoDup (pair_of <$> t) ->
  rows_of p u t = option_list (getByProjectAndUser p u t).
Proof.
  intros Hnd. unfold getByProjectAndUser. fold (rows_of p u t).
  destruct (rows_of_unique p u t Hnd) as [-> | [m ->]]; reflexivity.
Qed.

Lemma getByProjectAndUser_elem p u t m :
  getByProjectAndUser p u t = Some m -> m ∈ t /\ project_id m = p /\ user_id m = u.
Proof.
  unfold getByProjectAndUser. intros H.
  assert (Hin : m ∈ where_ (for_member p u) t).
  { destruct (where_ (for_member p u) t) as [|x l]; [discriminate|].
    simpl in H. injection H as ->. left. }
  apply where_elem in Hin as [Hin Hf]. apply for_member_pair in Hf.
  injection Hf as H1 H2. auto.
Qed.

(** With one row per pair, any row of the pair is the one the lookup
    returns. *)
Lemma getByProjectAndUser_the p u t m :
  NoDup (pair_of <$> t) -> m ∈ t -> project_id m = p -> user_id m = u ->
  getByProjectAndUser p u t = Some m.
Proof.
  intros Hnd Hin Hp Hu.
  assert (Hm : m ∈ rows_of p u t).
  { apply where_elem. split; [exact Hin|]. apply for_member_pair.
    unfold pair_of. rewrite Hp, Hu. reflexivity. }
  unfold getByProjectAndUser. fold (rows_of p u t).
  destruct (rows_of_unique p u t Hnd) as [E | [m' E]]; rewrite E in *.
  - inversion Hm.
  - apply list_elem_of_singleton in Hm. subst. reflexivity.
Qed.

Lemma filter_filter_and (f g : ProjectMember -> bool) t :
  List.filter g (List.filter f t) = List.filter (fun m => f m && g m) t.
Proof.
  induction t as [|m t IH]; simpl; [reflexivity|].
  destruct (f m); simpl; [destruct (g m)|]; rewrite IH; reflexivity.
Qed.

(** Patching the rows selected by [f] loses at most the selected rows
    that satisfied [P]. *)
Lemma count_patch_where (P f : ProjectMember -> bool) pt t :
  (length (List.filter P t) <=
   length (List.filter P (patch_where f pt t)) +
   length (List.filter P (List.filter f t)))%nat.
Proof.
  induction t as [|m t IH]; simpl; [lia|].
  destruct (f m) eqn:Ef; simpl.
  - destruct (P m), (P (apply_patch pt m)); simpl; lia.
  - destruct (P m); simpl; lia.
Qed.

(** A patch under which [P] survives on every row loses nothing. *)
Lemma count_patch_where_mono (P f : ProjectMember -> bool) pt t :
  (forall m, P m = true -> P (apply_patch pt m) = true) ->
  (length (List.filter P t) <= length (List.filter P (patch_where f pt t)))%nat.
Proof.
  intros HP. induction t as [|m t IH]; simpl; [lia|].
  destruct (P m) eqn:Em.
  - destruct (f m); [rewrite (HP m Em)|rewrite Em]; simpl; lia.
  - destruct (f m); [destruct (P (apply_patch pt m))|rewrite Em]; simpl; lia.
Qed.

(** The active admins of [q] among the rows of the pair [(p, u)]. *)
Lemma admins_of_pair p u q t :
  NoDup (pair_of <$> t) ->
  List.filter (active_admin q) (rows_of p u t) = [] \/
  (q = p /\ exists m, getByProjectAndUser p u t = Some m /\
                      role m = key ADMIN /\ is_active m = true /\
                      List.filter (active_admin q) (rows_of p u t) = [m]).
Proof.
  intros Hnd. rewrite (getByProjectAndUser_rows p u t Hnd).
  destruct (getByProjectAndUser p u t) as [m|] eqn:E; simpl; [|auto].
  destruct (active_admin q m) eqn:Ea; [|auto].
  right. unfold active_admin in Ea.
  apply andb_true_iff in Ea as [Ea Hact]. apply andb_true_iff in Ea as [Hq Hr].
  apply bool_decide_eq_true in Hq, Hr.
  apply getByProjectAndUser_elem in E as (_ & Hp & _).
  split; [congruence|]. exists m. auto.
Qed.

End Tables.

Section AdminInvariant.

Implicit Types (t : table) (m : ProjectMember) (p q u : string).

Lemma removeMember_wf p u now t n t' :
  wf t -> removeMember p u now t = Ok (n, t') -> wf t'.
Proof.
  unfold removeMember. intros Hwf.
  destruct (_ && _); [discriminate|]. intros [= _ <-].
  apply patch_where_wf, Hwf.
Qed.

(** Every call of [updateMember] throws: the guard's error for the last
    admin, objection's refusal of the patch otherwise. *)
Lemma updateMember_throws p u r cp now t :
  updateMember p u r cp now t = Err LastAdminChange \/
  updateMember p u r cp now t = Err NotAnInstanceOperation.
Proof.
  unfold updateMember, static_patchAndFetch.
  destruct (if bool_decide _ then _ else _); auto.
Qed.

Lemma step_update p u r cp now t : step (Update p u r cp now) t = t.
Proof.
  simpl. destruct (updateMember_throws p u r cp now t) as [-> | ->]; reflexivity.
Qed.

Lemma step_wf o t : wf t -> wf (step o t).
Proof.
  intros Hwf. destruct o as [p u now | p u r cp now].
  - simpl. destruct (removeMember p u now t) as [[n t']|] eqn:E; [|exact Hwf].
    eapply removeMember_wf; eauto.
  - rewrite step_update. exact Hwf.
Qed.

(** A successful [removeMember] leaves every project that had an active
    admin with one. *)
Lemma removeMember_keeps_admin q p u now t n t' :
  wf t -> (1 <= admin_count q t)%nat ->
  removeMember p u now t = Ok (n, t') -> (1 <= admin_count q t')%nat.
Proof.
  intros [_ Hnd] Hq. unfold removeMember.
  destruct (role_is_admin _ && _) eqn:G; [discriminate|]. intros [= _ <-].
  match goal with |- context [patch_where ?f ?pt t] =>
    pose proof (count_patch_where (active_admin q) f pt t) as Hc end.
  change (List.filter (for_member p u) t) with (rows_of p u t) in Hc.
    unfold admin_count, where_ in *.
  destruct (admins_of_pair p u q t Hnd) as [E | (-> & m & Hg & Hr & _ & E)];
    rewrite E in Hc; simpl in Hc; [lia|].
  rewrite Hg in G. simpl in G. rewrite bool_decide_eq_true_2 in G by exact Hr.
  simpl in G. apply Nat.leb_gt in G. lia.
Qed.

Lemma step_keeps_admin q o t :
  wf t -> (1 <= admin_count q t)%nat -> (1 <= admin_count q (step o t))%nat.
Proof.
  intros Hwf Hq. destruct o as [p u now | p u r cp now].
  - simpl. destruct (removeMember p u now t) as [[n t']|] eqn:E; [|exact Hq].
    eapply removeMember_keeps_admin; eauto.
  - rewrite step_update. exact Hq.
Qed.

(** Calls that do not overlap: on a table with one row per (project,
    user) pair, a project that has an active admin still has one after
    any sequence of [removeMember] and [updateMember] calls each of
    which has settled before the next one starts. *)
Lemma calls_in_turn_keep_admin (q : string) (ops : list op) (t : table) :
  wf t -> (1 <= admin_count q t)%nat -> (1 <= admin_count q (run ops t))%nat.
Proof.
  unfold run. revert t.
  induction ops as [|o ops IH]; intros t Hwf Hq; simpl; [exact Hq|].
  apply IH; [apply step_wf, Hwf | apply step_keeps_admin; assumption].
Qed.

End AdminInvariant.

Section Removal.

Implicit Types (t : table) (m : ProjectMember) (p u : string).

Lemma removeMember_guard p u now t :
  removeMember p u now t = Err LastAdminRemove <->
  role_is_admin (getByProjectAndUser p u t) = true /\ (admin_count p t <= 1)%nat.
Proof.
  unfold removeMember, admin_count.
  destruct (role_is_admin _ && _) eqn:G.
  - apply andb_true_iff in G as [G1 G2]. apply Nat.leb_le in G2. tauto.
  - split; [discriminate|]. intros [G1 G2]. apply Nat.leb_le in G2.
    rewrite G1, G2 in G. discriminate.
Qed.

Lemma removeMember_error p u now t e :
  removeMember p u now t = Err e -> e = LastAdminRemove.
Proof.
  unfold removeMember. destruct (role_is_admin _ && _); [|discriminate].
  intros [= <-]. reflexivity.
Qed.

Lemma role_is_admin_row p u t :
  NoDup (pair_of <$> t) ->
  role_is_admin (getByProjectAndUser p u t) = true <->
  exists m, m ∈ t /\ project_id m = p /\ user_id m = u /\ role m = key ADMIN.
Proof.
  intros Hnd. split.
  - destruct (getByProjectAndUser p u t) as [m|] eqn:E; [|discriminate].
    simpl. intros Hr. apply bool_decide_eq_true in Hr.
    apply getByProjectAndUser_elem in E as (Hin & Hp & Hu). eauto 6.
  - intros (m & Hin & Hp & Hu & Hr).
    rewrite (getByProjectAndUser_the p u t m Hnd Hin Hp Hu). simpl.
    apply bool_decide_eq_true. exact Hr.
Qed.

Lemma deactivated_patch now m :
  apply_patch {| p_role := None; p_is_active := Some false; p_invited_by := None;
                 p_invited_at := None; p_joined_at := None;
                 p_last_accessed_at := None; p_permissions := None;
                 p_updated_at := Some now |} m = deactivated now m.
Proof. reflexivity. Qed.

Lemma removeMember_rows p u now t n t' :
  removeMember p u now t = Ok (n, t') ->
  n = length (rows_of p u t) /\
  Forall2 (fun m m' => m' = if for_member p u m then deactivated now m else m) t t'.
Proof.
  unfold removeMember. destruct (role_is_admin _ && _); [discriminate|].
  intros [= <- <-]. split; [reflexivity|].
  unfold patch_where. induction t as [|m t IH]; simpl; constructor; [|exact IH].
  destruct (for_member p u m); reflexivity.
Qed.

(** C10. When the table holds no row at all for (project, user),
    [removeMember] throws nothing: it resolves to 0 affected rows and the
    table is the one it started from. *)
Theorem removeMember_absent (p u now : string) (t : table) :
  (forall m, m ∈ t -> ~ (project_id m = p /\ user_id m = u)) ->
  removeMember p u now t = Ok (0%nat, t).
Proof.
  intros Hno.
  assert (E : where_ (for_member p u) t = []).
  { destruct (where_ (for_member p u) t) as [|m l] eqn:F; [reflexivity|].
    exfalso. assert (Hm : m ∈ where_ (for_member p u) t) by (rewrite F; left).
    apply where_elem in Hm as [Hin Hf]. apply for_member_pair in Hf.
    injection Hf as H1 H2. exact (Hno m Hin (conj H1 H2)). }
  unfold removeMember, getByProjectAndUser, affected. rewrite E. simpl.
  rewrite patch_where_none by exact E. reflexivity.
Qed.

(** C8, as the code has it.  [removeMember] never deletes a row: on
    success the table keeps every row in place, the rows of the pair
    become inactive (only [is_active] and [updated_at] change) and the
    others are untouched.  It throws only the last-admin error, and it
    throws exactly when the row of the pair has role admin, active or
    not, while the project has at most one active admin; this covers
    the sole active admin. *)
Theorem removeMember_soft_delete_guard (p u now : string) (t : table) :
  wf t ->
  (removeMember p u now t = Err LastAdminRemove <->
     exists m, m ∈ t /\ project_id m = p /\ user_id m = u /\
               role m = key ADMIN /\ (admin_count p t <= 1)%nat)
  /\ (forall e, removeMember p u now t = Err e -> e = LastAdminRemove)
  /\ (sole_active_admin p u t -> removeMember p u now t = Err LastAdminRemove)
  /\ (forall n t', removeMember p u now t = Ok (n, t') ->
        n = length (rows_of p u t) /\
        Forall2 (fun m m' => m' = if for_member p u m then deactivated now m else m) t t').
Proof.
  intros [_ Hnd]. repeat split.
  - intros H. apply removeMember_guard in H as [H1 H2].
    apply (role_is_admin_row p u t Hnd) in H1 as (m & ? & ? & ? & ?). eauto 8.
  - intros (m & Hin & Hp & Hu & Hr & Hc). apply removeMember_guard. split; [|exact Hc].
    apply (role_is_admin_row p u t Hnd). eauto 6.
  - apply removeMember_error.
  - intros (m & Hin & Hp & Hu & Hr & _ & Hc). apply removeMember_guard. split; [|lia].
    apply (role_is_admin_row p u t Hnd). eauto 6.
  - eapply removeMember_rows; eauto.
  - eapply removeMember_rows; eauto.
Qed.

End Removal.

Section Reactivation.

Implicit Types (t : table) (m : ProjectMember) (p u : string) (pt : Patch).

Lemma patch_where_unselected f pt (l : table) :
  (forall x, x ∈ l -> f x = false) -> patch_where f pt l = l.
Proof.
  intros H. apply patch_where_none.
  destruct (where_ f l) as [|x l'] eqn:E; [reflexivity|].
  assert (Hx : x ∈ where_ f l) by (rewrite E; left).
  apply where_elem in Hx as [Hin Hf]. rewrite (H x Hin) in Hf. discriminate.
Qed.

(** The primary key selects one row: patching by id rewrites that row in
    place. *)
Lemma patch_by_id pt t m :
  NoDup (id <$> t) -> m ∈ t ->
  exists l1 l2, t = (l1 ++ m :: l2)%list /\
    patch_where (fun x => bool_decide (id x = id m)) pt t
    = (l1 ++ apply_patch pt m :: l2)%list.
Proof.
  intros Hnd Hin. apply list_elem_of_split in Hin as (l1 & l2 & ->).
  exists l1, l2. split; [reflexivity|].
  rewrite fmap_app, fmap_cons in Hnd.
  apply NoDup_app in Hnd as (_ & H1 & Hnd). apply NoDup_cons in Hnd as [H2 _].
  unfold patch_where. rewrite List.map_app. simpl.
  rewrite bool_decide_eq_true_2 by reflexivity.
  fold (patch_where (fun x => bool_decide (id x = id m)) pt l1).
  fold (patch_where (fun x => bool_decide (id x = id m)) pt l2).
  rewrite !patch_where_unselected; [reflexivity| |].
  - intros x Hx. apply bool_decide_eq_false. intros E. apply H2. rewrite <- E.
    apply list_elem_of_fmap. eauto.
  - intros x Hx. apply bool_decide_eq_false. intros E.
    apply (H1 (id x)); [apply list_elem_of_fmap; eauto|]. rewrite E. left.
Qed.

Lemma rows_of_replace p u (l1 l2 : table) m m' :
  rows_of p u (l1 ++ m :: l2) = [m] -> pair_of m' = pair_of m ->
  rows_of p u (l1 ++ m' :: l2) = [m'].
Proof.
  unfold rows_of, where_. rewrite !List.filter_app. simpl. intros H Hp.
  assert (Hm : for_member p u m = true).
  { destruct (for_member p u m) eqn:E; [reflexivity|].
    assert (Hin : m ∈ where_ (for_member p u) (l1 ++ l2)).
    { unfold where_. rewrite List.filter_app, H. left. }
    apply where_elem in Hin as [_ Hf]. congruence. }
  assert (Hm' : for_member p u m' = true).
  { apply for_member_pair. rewrite Hp. apply for_member_pair, Hm. }
  rewrite Hm in H. rewrite Hm'.
  destruct (List.filter (for_member p u) l1) as [|x l]; simpl in *.
  - injection H as ->. reflexivity.
  - injection H as -> H. destruct l; discriminate.
Qed.

(** The test [existingMember.is_active] is never true. *)
Lemma is_active_undefined (b : bool) :
  Mappers.truthy (Mappers.fetched "is_active" b) = false.
Proof. reflexivity. Qed.

(** [addMember] never throws the already-a-member error. *)
Lemma addMember_not_AlreadyMember p u r by_ cp fresh now t :
  addMember p u r by_ cp fresh now t <> Err AlreadyMember.
Proof.
  unfold addMember. destruct (getByProjectAndUser p u t) as [m|].
  - rewrite is_active_undefined. case_bool_decide; discriminate.
  - case_bool_decide; discriminate.
Qed.

(** On a row of the pair, active or not, [addMember] with a role of the
    schema patches that row in place. *)
Lemma addMember_existing p u r by_ cp fresh now t m :
  wf t -> m ∈ t -> project_id m = p -> user_id m = u -> r ∈ role_enum ->
  exists m' t', addMember p u r by_ cp fresh now t = Ok (m', t') /\
    id m' = id m /\ role m' = r /\ is_active m' = true /\
    joined_at m' = None /\ last_accessed_at m' = None /\
    invited_at m' = Some now /\ invited_by m' = by_ /\
    rows_of p u t' = [m'] /\ length t' = length t /\ wf t'.
Proof.
  intros [Hid Hnd] Hin Hp Hu Hr. unfold addMember.
  rewrite (getByProjectAndUser_the p u t m Hnd Hin Hp Hu), is_active_undefined.
  rewrite bool_decide_eq_true_2 by exact Hr.
  eexists _, _. split; [reflexivity|]. repeat split.
  - destruct (patch_by_id
      {| p_role := Some r; p_is_active := Some true; p_invited_by := Some by_;
         p_invited_at := Some (Some now); p_joined_at := Some None;
         p_last_accessed_at := Some None;
         p_permissions := permissions_arg r cp; p_updated_at := Some now |}
      t m Hid Hin) as (l1 & l2 & Ht & ->).
    apply rows_of_replace with (m := m); [|reflexivity].
    rewrite <- Ht, (getByProjectAndUser_rows p u t Hnd).
    rewrite (getByProjectAndUser_the p u t m Hnd Hin Hp Hu). reflexivity.
  - apply patch_where_length.
  - rewrite patch_where_ids. exact Hid.
  - rewrite patch_where_pairs. exact Hnd.
Qed.

Lemma wf_nil : wf [].
Proof. split; constructor. Qed.

(** [addMember] keeps the table constraints as long as the generated id
    is new: the table shape assumed below is the one the operations
    themselves produce from the empty table. *)
Lemma addMember_wf p u r by_ cp fresh now t m' t' :
  wf t -> fresh ∉ id <$> t ->
  addMember p u r by_ cp fresh now t = Ok (m', t') -> wf t'.
Proof.
  intros [Hid Hnd] Hfresh. unfold addMember.
  destruct (getByProjectAndUser p u t) as [m|] eqn:E.
  - rewrite is_active_undefined. case_bool_decide; [|discriminate]. intros [= _ <-].
    apply patch_where_wf. split; assumption.
  - case_bool_decide; [|discriminate].
    intros [= _ <-]. split; rewrite fmap_app; apply NoDup_app.
    + split; [exact Hid|]. split; [|apply NoDup_singleton].
      intros x Hx Hx'. apply list_elem_of_singleton in Hx'. subst x. exact (Hfresh Hx).
    + split; [exact Hnd|]. split; [|apply NoDup_singleton].
      intros x Hx Hx'. apply list_elem_of_singleton in Hx'. subst x.
      apply list_elem_of_fmap in Hx as (m & Hm & Hin). simpl in Hm.
      assert (Hrow : m ∈ where_ (for_member p u) t).
      { apply where_elem. split; [exact Hin|]. apply for_member_pair. symmetry. exact Hm. }
      unfold getByProjectAndUser in E.
      destruct (where_ (for_member p u) t); [inversion Hrow | discriminate].
Qed.

(** Removing a member and adding the user again, with a role of the
    schema, leaves one row for the pair: the original one, active. *)
Lemma remove_then_add p u r by_ cp fresh now now0 t m n t1 :
  wf t -> m ∈ t -> project_id m = p -> user_id m = u -> r ∈ role_enum ->
  removeMember p u now0 t = Ok (n, t1) ->
  exists m' t2, addMember p u r by_ cp fresh now t1 = Ok (m', t2) /\
    id m' = id m /\ is_active m' = true /\
    rows_of p u t2 = [m'] /\ length t2 = length t.
Proof.
  intros Hwf Hin Hp Hu Hr Hrm.
  pose proof (removeMember_wf p u now0 t n t1 Hwf Hrm) as Hwf1.
  apply removeMember_rows in Hrm as [_ HF].
  assert (Hm : for_member p u m = true).
  { apply for_member_pair. unfold pair_of. rewrite Hp, Hu. reflexivity. }
  assert (Hin1 : deactivated now0 m ∈ t1).
  { apply list_elem_of_lookup in Hin as [i Hi].
    destruct (Forall2_lookup_l _ _ _ _ _ HF Hi) as (m1 & Hi1 & E).
    rewrite Hm in E. subst m1. apply list_elem_of_lookup. eauto. }
  destruct (addMember_existing p u r by_ cp fresh now t1 (deactivated now0 m)
              Hwf1 Hin1 Hp Hu Hr)
    as (m' & t2 & H & ? & ? & ? & ? & ? & ? & ? & ? & Hlen & _).
  exists m', t2. repeat split; try assumption.
  rewrite Hlen. symmetry. eapply Forall2_length, HF.
Qed.

(** C9, the code at the failing input.  B is an active editor of P and
    is added again, as viewer, by A.  The call does not throw the
    already-a-member error: the active row is patched as a soft-removed
    one would be, B is now a viewer with a new invitation and no
    [joined_at], and the table has the same two rows.  No call of
    [addMember] throws that error. *)
Theorem addMember_patches_active_member :
  getByProjectAndUser "P" "B" t_AB = Some (member_row "m2" "B" "editor" true) /\
  is_active (member_row "m2" "B" "editor" true) = true /\
  (exists m',
     addMember "P" "B" "viewer" (Some "A") [] "m9" "t5" t_AB
       = Ok (m', [member_row "m1" "A" "admin" true; m']) /\
     id m' = "m2" /\ role m' = "viewer" /\ is_active m' = true /\
     permissions m' = getRolePermissions "editor" /\
     invited_by m' = Some "A" /\ invited_at m' = Some "t5" /\
     joined_at m' = None /\ last_accessed_at m' = None) /\
  (forall p u r by_ cp fresh now t,
     addMember p u r by_ cp fresh now t <> Err AlreadyMember).
Proof.
  split; [reflexivity|]. split; [reflexivity|]. split.
  - eexists. split; [vm_compute; reflexivity|]. repeat split.
  - intros p u r by_ cp fresh now t. apply addMember_not_AlreadyMember.
Qed.

End Reactivation.

Section RoleUpdate.

(** C4, the code at the failing inputs.  Viewer V is to become an
    editor, and editor B is to get the custom role with one permission:
    both calls throw objection's refusal of [patchAndFetch] on a static
    query, nothing is written, V is still a viewer with the viewer
    list, which is not the editor list of the role table, and B still
    an editor with the editor list.  No call of [updateMember]
    returns. *)
Theorem updateMember_never_updates :
  updateMember "P" "V" "editor" [] "2024-02-01T00:00:00.000Z" t_AV
    = Err NotAnInstanceOperation /\
  step (Update "P" "V" "editor" [] "2024-02-01T00:00:00.000Z") t_AV = t_AV /\
  getByProjectAndUser "P" "V" t_AV = Some (member_row "m4" "V" "viewer" true) /\
  getRolePermissions "viewer" <> getRolePermissions "editor" /\
  updateMember "P" "B" "custom" ["query:read"] "2024-02-01T00:00:00.000Z" t_AB
    = Err NotAnInstanceOperation /\
  step (Update "P" "B" "custom" ["query:read"] "2024-02-01T00:00:00.000Z") t_AB = t_AB /\
  getByProjectAndUser "P" "B" t_AB = Some (member_row "m2" "B" "editor" true) /\
  (forall p u r cp now t, is_ok (updateMember p u r cp now t) = false).
Proof.
  repeat split; try reflexivity.
  - vm_compute. discriminate.
  - intros p u r cp now t.
    destruct (updateMember_throws p u r cp now t) as [-> | ->]; reflexivity.
Qed.

End RoleUpdate.

Section Scenarios.

(** The scenario of the specification: with admin A and editor B, A
    cannot be removed; once C has been added as admin, A can, and the
    project is left with admin C and editor B. *)
Example last_admin_scenario :
  removeMember "P" "A" "t1" t_AB = Err LastAdminRemove /\
  exists c t1 n t2,
    addMember "P" "C" "admin" (Some "A") [] "m3" "t2" t_AB = Ok (c, t1) /\
    removeMember "P" "A" "t3" t1 = Ok (n, t2) /\
    n = 1%nat /\
    (user_id <$> where_ (active_admin "P") t2) = ["C"] /\
    (fun m => (user_id m, role m)) <$> where_ is_active t2 = [("B", "editor"); ("C", "admin")].
Proof.
  split; [reflexivity|]. eexists _, _, _, _.
  split; [reflexivity|]. split; [reflexivity|]. repeat split.
Qed.

(** Witness of C10: user Z has no row in the table of A and B. *)
Lemma removeMember_absent_witness :
  (forall m, m ∈ t_AB -> ~ (project_id m = "P" /\ user_id m = "Z")) /\
  removeMember "P" "Z" "t1" t_AB = Ok (0%nat, t_AB).
Proof.
  assert (H : forall m, m ∈ t_AB -> ~ (project_id m = "P" /\ user_id m = "Z")).
  { intros m Hm [_ Hu]. unfold t_AB in Hm.
    apply elem_of_cons in Hm as [-> | Hm]; [discriminate|].
    apply elem_of_cons in Hm as [-> | Hm]; [discriminate|]. inversion Hm. }
  split; [exact H|]. apply (removeMember_absent "P" "Z" "t1" t_AB H).
Defined.

(** Counterexample to C8 as stated.  A and C are the active admins of
    P.  Removing C succeeds and leaves C soft-removed, so that A is the
    only active admin; removing C once more is refused with the
    last-admin error although C is not the sole active admin. *)
Lemma removeMember_refuses_inactive_admin :
  exists t1,
    removeMember "P" "C" "t1" t_AC_active = Ok (1%nat, t1) /\
    wf t1 /\
    removeMember "P" "C" "t2" t1 = Err LastAdminRemove /\
    ~ sole_active_admin "P" "C" t1.
Proof.
  eexists. split; [reflexivity|].
  split; [apply (bool_decide_unpack _); vm_compute; reflexivity|].
  split; [vm_compute; reflexivity|].
  intros (m & Hm & _ & Hu & _ & Ha & _).
  apply elem_of_cons in Hm as [-> | Hm]; [discriminate|].
  apply elem_of_cons in Hm as [-> | Hm]; [discriminate|]. inversion Hm.
Qed.

(** Witness of C8 as amended. *)
Lemma removeMember_soft_delete_guard_witness :
  wf t_AB /\
  removeMember "P" "A" "t1" t_AB = Err LastAdminRemove /\
  exists n t', removeMember "P" "B" "t1" t_AB = Ok (n, t') /\ n = 1%nat /\
               id <$> t' = id <$> t_AB.
Proof.
  assert (Hwf : wf t_AB) by (apply (bool_decide_unpack _); vm_compute; reflexivity).
  split; [exact Hwf|].
  destruct (removeMember_soft_delete_guard "P" "A" "t1" t_AB Hwf) as (HA & _).
  split.
  - apply HA. exists (member_row "m1" "A" "admin" true).
    repeat split; [left | vm_compute; lia].
  - eexists _, _. split; [vm_compute; reflexivity|]. split; reflexivity.
Defined.

End Scenarios.

End MemberProps.

(** * Removals that overlap *)

Module RaceProps.
Import Member Race MemberProps.

(** A call that runs its three statements with nothing in between does
    what [removeMember] does. *)
Lemma advance_alone (p u now : string) (t : table) :
  interleave [0; 0; 0]%nat [removal p u now] t =
    match removeMember p u now t with
    | Ok (n, t') => ([mkCall p u now (Settled (Ok n))], t')
    | Err e => ([mkCall p u now (Settled (Err e))], t)
    end.
Proof.
  unfold interleave, removeMember, removal. simpl. unfold tick, advance. simpl.
  destruct (role_is_admin _ && _); reflexivity.
Qed.

(** A settled call takes no further part. *)
Lemma advance_settled (c : call) (r : result nat) (t : table) :
  at_ c = Settled r -> advance c t = (c, t).
Proof. unfold advance. intros ->. reflexivity. Qed.

(** C1, the code at the failing input.  A and C are the two active
    admins of P, the table has one row per member, and two requests ask
    for the removal of A and of C.  When their statements alternate,
    each call reads two active admins before the other has written, both
    pass the guard, both patches are applied, and P is left without an
    active admin.  When the second call starts after the first has
    settled, it is refused and P keeps one admin. *)
Theorem overlapping_removals_leave_no_admin :
  let calls := [removal "P" "A" "t1"; removal "P" "C" "t2"] in
  wf t_AC_active /\ admin_count "P" t_AC_active = 2%nat /\
  (exists t',
     interleave [0; 1; 0; 1; 0; 1]%nat calls t_AC_active
       = ([mkCall "P" "A" "t1" (Settled (Ok 1%nat));
           mkCall "P" "C" "t2" (Settled (Ok 1%nat))], t') /\
     t' = [deactivated "t1" (member_row "m1" "A" "admin" true);
           deactivated "t2" (member_row "m3" "C" "admin" true)] /\
     wf t' /\ admin_count "P" t' = 0%nat) /\
  (exists t',
     interleave [0; 0; 0; 1; 1; 1]%nat calls t_AC_active
       = ([mkCall "P" "A" "t1" (Settled (Ok 1%nat));
           mkCall "P" "C" "t2" (Settled (Err LastAdminRemove))], t') /\
     admin_count "P" t' = 1%nat).
Proof.
  cbv zeta. split; [apply (bool_decide_unpack _); vm_compute; reflexivity|].
  split; [reflexivity|]. split.
  - eexists. split; [vm_compute; reflexivity|]. split; [reflexivity|].
    split; [apply (bool_decide_unpack _); vm_compute; reflexivity | reflexivity].
  - eexists. split; [vm_compute; reflexivity | reflexivity].
Qed.

End RaceProps.

(** * Properties of the role checks *)

Module AuthzProps.
Import Member Authz.

(** The relation [members] of Project is declared, and its [modelClass]
    cannot be resolved; no model declares a relation [user_projects]. *)
Lemma relatedQuery_members :
  is_ok (Relations.relatedQuery Relations.Project "members") = false.
Proof. reflexivity. Qed.

Lemma relatedQuery_user_projects :
  Forall (fun this => is_ok (Relations.relatedQuery this "user_projects") = false)
         Relations.models.
Proof. repeat constructor. Qed.

(** The middleware never calls [next()]. *)
Lemma authorizeProject_never_grants requiredRole projectId userId members :
  granted (authorizeProject requiredRole projectId userId members) = false.
Proof.
  unfold authorizeProject. destruct projectId as [p|]; [|reflexivity].
  case_bool_decide; reflexivity.
Qed.

(** [checkPermission] throws whenever it is given a user id. *)
Lemma checkPermission_throws this u p requiredRole ups :
  this ∈ Relations.models -> u <> "" ->
  is_ok (checkPermission this (Some u) p requiredRole ups) = false.
Proof.
  intros Hin Hu. unfold checkPermission.
  rewrite bool_decide_eq_false_2 by exact Hu.
  pose proof relatedQuery_user_projects as H. rewrite Forall_forall in H.
  specialize (H this Hin).
  destruct (Relations.relatedQuery this "user_projects"); [discriminate | reflexivity].
Qed.

(** C2, the code at the failing input.  A is an active member of P with
    role admin and the route requires user: admin ranks above user, yet
    [authorizeProject] answers 500 for the request that names the
    project, and 400 for the request as the routes deliver it, without a
    [projectId]; it grants no request at all.  On the same roles
    [checkPermission] throws, on whichever model it is called. *)
Theorem authorizeProject_refuses_admin :
  getByProjectAndUser "P" "A" t_AB = Some (member_row "m1" "A" "admin" true) /\
  spec_hasRole "admin" "user" = true /\
  authorizeProject "user" (Some "P") "A" t_AB = Status 500 "Error authorizing request" /\
  authorizeProject "user" None "A" t_AB = Status 400 "Project ID is required" /\
  (forall requiredRole projectId userId members,
     granted (authorizeProject requiredRole projectId userId members) = false) /\
  Forall (fun this =>
            is_ok (checkPermission this (Some "A") "P" "user" [mkUserProject "A" "P" "admin"])
              = false)
         Relations.models.
Proof.
  split; [reflexivity|]. split; [reflexivity|]. split; [reflexivity|].
  split; [reflexivity|]. split; [apply authorizeProject_never_grants|].
  repeat constructor.
Qed.

End AuthzProps.

(** * Properties of the project databases *)

Module DatabasesProps.
Import Databases.

Section ConnectionConfigs.

Variable encodeURIComponent : string -> string.

(** The three types the [switch] handles get a configuration, with the
    default port of the engine when the stored port is absent. *)
Lemma getConnectionConfig_handled (this : ProjectDatabase) :
  type this = "postgresql" \/ type this = "mysql" \/ type this = "mongodb" ->
  exists c, getConnectionConfig encodeURIComponent this = Ok c /\
    (type this = "postgresql" -> client c = "pg" /\
       config_port c = Some (port_or (port (connection_config this)) 5432)) /\
    (type this = "mysql" -> client c = "mysql2" /\
       config_port c = Some (port_or (port (connection_config this)) 3306)) /\
    (type this = "mongodb" -> client c = "mongodb").
Proof.
  unfold getConnectionConfig.
  intros [H | [H | H]]; rewrite H; simpl; eexists; split; try reflexivity;
    repeat split; intros; try discriminate; reflexivity.
Qed.

(** Every other type is refused, whether the enum lists it or not. *)
Lemma getConnectionConfig_default (this : ProjectDatabase) :
  type this <> "postgresql" -> type this <> "mysql" -> type this <> "mongodb" ->
  getConnectionConfig encodeURIComponent this = Err (Unsupported (type this)).
Proof.
  intros H1 H2 H3. unfold getConnectionConfig.
  rewrite !bool_decide_eq_false_2 by assumption. reflexivity.
Qed.

(** C5, the code at the failing inputs.  The types mssql and sqlite are
    in the enum of the schema, and building the configuration of a
    database registered with either of them throws the unsupported-type
    error. *)
Theorem getConnectionConfig_rejects_enum_types :
  type D2 ∈ type_enum /\
  getConnectionConfig encodeURIComponent D2 = Err (Unsupported "mssql") /\
  type D3 ∈ type_enum /\
  getConnectionConfig encodeURIComponent D3 = Err (Unsupported "sqlite").
Proof.
  repeat split; try reflexivity; apply (bool_decide_unpack _); vm_compute; reflexivity.
Qed.

End ConnectionConfigs.

Section Primary.

Implicit Types (t : table) (p q : string) (r : ProjectDatabase).

Lemma primaries_app p t1 t2 : primaries p (t1 ++ t2) = primaries p t1 ++ primaries p t2.
Proof. unfold primaries. apply List.filter_app. Qed.

Lemma primaries_clear_same p t : primaries p (clear_primary p t) = [].
Proof.
  unfold primaries, clear_primary. induction t as [|r t IH]; simpl; [reflexivity|].
  destruct (bool_decide (project_id r = p) && is_primary r) eqn:E; simpl.
  - rewrite andb_false_r. exact IH.
  - rewrite E. exact IH.
Qed.

Lemma primaries_clear_other p q t : q <> p -> primaries q (clear_primary p t) = primaries q t.
Proof.
  intros Hq. unfold primaries, clear_primary. induction t as [|r t IH]; simpl; [reflexivity|].
  destruct (bool_decide (project_id r = p) && is_primary r) eqn:E; simpl.
  - apply andb_true_iff in E as [E1 E2]. apply bool_decide_eq_true in E1.
    rewrite !bool_decide_eq_false_2 by congruence. simpl. exact IH.
  - rewrite IH. reflexivity.
Qed.

Lemma one_primary_clear p t : one_primary t -> one_primary (clear_primary p t).
Proof.
  intros H q. destruct (decide (q = p)) as [-> | Hq].
  - rewrite primaries_clear_same. simpl. lia.
  - rewrite primaries_clear_other by exact Hq. apply H.
Qed.

Lemma one_primary_append_plain t r :
  is_primary r = false -> one_primary t -> one_primary (t ++ [r]).
Proof.
  intros Hr H q. rewrite primaries_app. unfold primaries at 2. simpl.
  rewrite Hr, andb_false_r, app_nil_r. apply H.
Qed.

Lemma one_primary_append_cleared t r :
  one_primary t -> one_primary (clear_primary (project_id r) t ++ [r]).
Proof.
  intros H q. rewrite primaries_app. destruct (decide (q = project_id r)) as [-> | Hq].
  - rewrite primaries_clear_same. unfold primaries. simpl.
    destruct (_ && _); simpl; lia.
  - rewrite primaries_clear_other by exact Hq. unfold primaries at 2. simpl.
    rewrite bool_decide_eq_false_2 by congruence. simpl. rewrite app_nil_r. apply H.
Qed.

Lemma clear_primary_idem p t : clear_primary p (clear_primary p t) = clear_primary p t.
Proof.
  unfold clear_primary. rewrite List.map_map. apply List.map_ext. intros r.
  destruct (bool_decide (project_id r = p) && is_primary r) eqn:E; simpl.
  - rewrite andb_false_r. reflexivity.
  - rewrite E. reflexivity.
Qed.

(** C6, the code at the failing input.  Project P has D1 as primary and
    D2 is updated to primary inside a transaction.  With [this.$before]
    undefined the hook throws before anything is cleared or written.
    With [this.$before] holding the earlier row, the hook clears D1 on
    the default connection: D1 is committed as non-primary while the new
    flag of D2 is still uncommitted, and after a rollback the project is
    left without a primary; the clearing was not part of the transaction
    of the write. *)
Theorem update_primary_clears_outside_transaction :
  let this := set_primary true D2 in
  let s0 := startTransaction s_D1D2 in
  primaries "P" (committed s0) = [D1] /\
  update Trx this None s0 = Err TypeError /\
  exists s', update Trx this (Some D2) s0 = Ok s' /\
    working s' = Some [set_primary false D1; this] /\
    committed s' = [set_primary false D1; D2] /\
    committed (rollback s') = [set_primary false D1; D2] /\
    primaries "P" (committed (rollback s')) = [].
Proof.
  simpl. split; [reflexivity|]. split; [reflexivity|].
  eexists. split; [reflexivity|]. repeat split.
Qed.

End Primary.

End DatabasesProps.

(** * Properties of the connection cache *)

Module BrokerProps.
Import Databases Broker.

Section Cache.

Implicit Types (e : env) (s : state) (p d k : string) (c h : Knex).

(** What a lookup does: a cached instance is returned as it is; without
    one, the call throws, with the not-found error when the id does not
    belong to the project and with the TypeError of the undefined
    configuration when it does.  The state is never changed. *)
Lemma getDbConnection_unfold e p d s :
  getDbConnection e p d s =
    match dbConnections s !! cacheKey p d with
    | Some cached => (Ok cached, s)
    | None =>
        match findById d p (databases e) with
        | None => (Err DatabaseNotFound, s)
        | Some _ => (Err ConfigUndefined, s)
        end
    end.
Proof.
  unfold getDbConnection.
  destruct (dbConnections s !! cacheKey p d); [reflexivity|].
  destruct (findById d p (databases e)); reflexivity.
Qed.

Lemma getDbConnection_state e p d s : snd (getDbConnection e p d s) = s.
Proof.
  rewrite getDbConnection_unfold.
  destruct (dbConnections s !! cacheKey p d); [reflexivity|].
  destruct (findById d p (databases e)); reflexivity.
Qed.

(** The pass over the cache removes the entries whose [destroy()]
    returned and keeps the ones whose [destroy()] threw. *)
Lemma cleanup_fold e (m : gmap string Knex) s0 :
  let s' := map_fold (cleanup_entry e) s0 m in
  next_hid s' = next_hid s0 /\
  forall k, dbConnections s' !! k =
    match m !! k with
    | Some c => match destroy_error e c with
                | None => None
                | Some _ => dbConnections s0 !! k
                end
    | None => dbConnections s0 !! k
    end.
Proof.
  apply (map_fold_weak_ind (fun s' m =>
    next_hid s' = next_hid s0 /\
    forall k, dbConnections s' !! k =
      match m !! k with
      | Some c => match destroy_error e c with
                  | None => None
                  | Some _ => dbConnections s0 !! k
                  end
      | None => dbConnections s0 !! k
      end)).
  - split; [reflexivity|]. intros k. rewrite lookup_empty. reflexivity.
  - intros i c m' r Hi [Hn IH]. unfold cleanup_entry.
    destruct (destroy_error e c) eqn:D; simpl; (split; [exact Hn|]); intros k.
    + destruct (decide (i = k)) as [-> | Hne].
      * rewrite lookup_insert_eq, D, IH, Hi. reflexivity.
      * rewrite lookup_insert_ne by exact Hne. apply IH.
    + destruct (decide (i = k)) as [-> | Hne].
      * rewrite lookup_delete_eq, lookup_insert_eq, D. reflexivity.
      * rewrite lookup_delete_ne, lookup_insert_ne by exact Hne. apply IH.
Qed.

Lemma cleanup_lookup e s k :
  dbConnections (cleanupDbConnections e s) !! k =
    match dbConnections s !! k with
    | Some c => match destroy_error e c with None => None | Some _ => Some c end
    | None => None
    end.
Proof.
  unfold cleanupDbConnections.
  destruct (cleanup_fold e (dbConnections s) s) as [_ H]. rewrite H.
  destruct (dbConnections s !! k) as [c|] eqn:E; [|reflexivity].
  destruct (destroy_error e c); reflexivity.
Qed.

Lemma cleanup_next_hid e s : next_hid (cleanupDbConnections e s) = next_hid s.
Proof. unfold cleanupDbConnections. apply (cleanup_fold e (dbConnections s) s). Qed.

(** When no [destroy()] throws, the pass empties the cache. *)
Lemma cleanup_empties e s :
  (forall k c, dbConnections s !! k = Some c -> destroy_error e c = None) ->
  dbConnections (cleanupDbConnections e s) = ∅.
Proof.
  intros H. apply map_eq. intros k. rewrite cleanup_lookup, lookup_empty.
  destruct (dbConnections s !! k) as [c|] eqn:E; [|reflexivity].
  rewrite (H k c E). reflexivity.
Qed.

(** C7, the code at the failing input.  D1 is registered for project P
    and its database answers the probe.  The first lookup throws a
    TypeError while the configuration of the instance is being built,
    the second one does the same, no instance is built and the cache
    stays empty: there is no handle for the second call to return.  No
    lookup changes the cache, and a lookup returns an instance only when
    the cache already holds it. *)
Theorem getDbConnection_never_connects :
  findById "d1" "P" (databases env_ok) = Some D1 /\
  select1 env_ok D1 = None /\
  getDbConnection env_ok "P" "d1" empty_state = (Err ConfigUndefined, empty_state) /\
  getDbConnection env_ok "P" "d1" (snd (getDbConnection env_ok "P" "d1" empty_state))
    = (Err ConfigUndefined, empty_state) /\
  (forall e p d s,
     snd (getDbConnection e p d s) = s /\
     match fst (getDbConnection e p d s) with
     | Ok h => dbConnections s !! cacheKey p d = Some h
     | Err _ => dbConnections s !! cacheKey p d = None
     end).
Proof.
  split; [reflexivity|]. split; [reflexivity|]. split; [reflexivity|].
  split; [reflexivity|].
  intros e p d s. split; [apply getDbConnection_state|].
  rewrite getDbConnection_unfold.
  destruct (dbConnections s !! cacheKey p d) eqn:E; [reflexivity|].
  destruct (findById d p (databases e)); reflexivity.
Qed.

End Cache.

End BrokerProps.

(** * Properties of query execution *)

Module GatewayProps.
Import Databases Gateway.

Section History.

Implicit Types (e : env) (req : request) (s : state).

(** Project declares no relation [query_history]: every insert into the
    history throws before a statement is sent. *)
Lemma insert_history_throws (entry : QueryHistoryEntry) s :
  is_ok (insert_history entry s) = false.
Proof. reflexivity. Qed.

Lemma on_error_unfold req t0 now caught s :
  on_error req t0 now caught s = (Json500 (message_of caught), s).
Proof. reflexivity. Qed.

(** A call leaves the history as it was and never answers 200. *)
Lemma execute_no_entry e req t0 t1 t2 s :
  query_history (snd (execute e req t0 t1 t2 s)) = query_history s /\
  match fst (execute e req t0 t1 t2 s) with
  | Json200 _ _ _ => False
  | Json400 => valid req = false
  | Json500 _ => valid req = true
  end.
Proof.
  unfold execute. destruct (valid req); simpl; [|auto].
  destruct (Broker.getDbConnection _ _ _ _) as [[db | caught] c].
  - destruct (raw e db (query req) (default [] (params req))) as [result | caught];
      simpl; auto.
  - simpl. auto.
Qed.

(** C3, the code at the failing input.  D1 is registered for P and
    reachable, and A sends [SELECT 1] for it in a request that passes
    validation.  The call is answered 500 with the TypeError of the
    lookup, and the history is as empty as before: the insert of the
    [catch] block throws, Project having no relation [query_history],
    and that error is logged and dropped.  The same holds of every call:
    none records an entry and none is answered 200. *)
Theorem execute_records_no_entry :
  valid req0 = true /\
  Broker.findById (database_id req0) (project_id req0) (Broker.databases (broker env_up))
    = Some D1 /\
  execute env_up req0 100 107 109 s0
    = (Json500 "Cannot read properties of undefined (reading 'ssl')", s0) /\
  query_history (snd (execute env_up req0 100 107 109 s0)) = [] /\
  (forall e req t0 t1 t2 s,
     query_history (snd (execute e req t0 t1 t2 s)) = query_history s /\
     match fst (execute e req t0 t1 t2 s) with
     | Json200 _ _ _ => False
     | Json400 => valid req = false
     | Json500 _ => valid req = true
     end).
Proof.
  split; [reflexivity|]. split; [reflexivity|]. split; [reflexivity|].
  split; [reflexivity|]. intros e req t0 t1 t2 s. apply execute_no_entry.
Qed.

End History.

End GatewayProps.

(** * Properties of the permission checks *)

Module MemberStaticProps.
Import Member MemberStatic MemberProps.

Section Checks.

Implicit Types (t : table) (m : ProjectMember) (p u : string).

Lemma where_patch_commute (f : ProjectMember -> bool) (g : ProjectMember -> ProjectMember) t :
  (forall m, f (g m) = f m) ->
  List.filter f (List.map g t) = List.map g (List.filter f t).
Proof.
  intros H. induction t as [|m t IH]; simpl; [reflexivity|].
  rewrite H. destruct (f m); simpl; rewrite IH; reflexivity.
Qed.

Lemma filter_none (f : ProjectMember -> bool) t :
  (forall m, m ∈ t -> f m = false) -> List.filter f t = [].
Proof.
  induction t as [|m t IH]; simpl; [reflexivity|]. intros H.
  rewrite (H m) by left. apply IH. intros x Hx. apply H. right. exact Hx.
Qed.

(** X1. After a successful [removeMember(p, u)] the static permission
    check answers false for that user, whatever is asked and whatever
    the role of the removed row, admin included. *)
Theorem removeMember_revokes (p u now : string) (t : table) (n : nat) (t' : table)
    (a : permission_arg) :
  removeMember p u now t = Ok (n, t') ->
  hasPermission p u a t' = false.
Proof.
  intros H. apply removeMember_rows in H as [_ HF].
  unfold hasPermission, where_.
  rewrite filter_none; [reflexivity|].
  intros m' Hm'. apply list_elem_of_lookup in Hm' as [i Hi].
  destruct (Forall2_lookup_r _ _ _ _ _ HF Hi) as (m & _ & ->).
  destruct (for_member p u m) eqn:E.
  - simpl. apply andb_false_r.
  - rewrite E. reflexivity.
Qed.

Lemma role_keys : key <$> ROLES = ["admin"; "editor"; "viewer"; "custom"].
Proof. reflexivity. Qed.

(** X2. Adding a user who has no row in the project, with a role of the
    schema's enum, appends one active row whose permissions are the
    role's list from [ROLES], or the supplied list for the custom role;
    from then on the static check answers true exactly for the admin
    role or for a permission of that list. *)
Theorem addMember_new_defaults (p u r : string) (by_ : option string)
    (cp : list string) (fresh now : string) (t : table) :
  r ∈ key <$> ROLES ->
  (forall m, m ∈ t -> ~ (project_id m = p /\ user_id m = u)) ->
  exists m, addMember p u r by_ cp fresh now t = Ok (m, t ++ [m]) /\
    id m = fresh /\ role m = r /\ is_active m = true /\
    permissions m = (if bool_decide (r = "custom") then cp else getRolePermissions r) /\
    forall perm, hasPermission p u (Single perm) (t ++ [m]) =
      (bool_decide (r = "admin") || bool_decide (perm ∈ permissions m)).
Proof.
  intros Hr Hno.
  assert (E : List.filter (for_member p u) t = []).
  { apply filter_none. intros m Hm. destruct (for_member p u m) eqn:F; [|reflexivity].
    apply for_member_pair in F. injection F as H1 H2. destruct (Hno m Hm). auto. }
  unfold addMember, getByProjectAndUser, where_. rewrite E. simpl.
  rewrite bool_decide_eq_true_2 by exact Hr.
  eexists. split; [reflexivity|]. split; [reflexivity|]. split; [reflexivity|].
  split; [reflexivity|]. split.
  - simpl. unfold permissions_arg. simpl. case_bool_decide as Hc.
    + subst r. destruct cp; reflexivity.
    + reflexivity.
  - intros perm. unfold hasPermission, where_. rewrite List.filter_app.
    rewrite filter_none.
    2:{ intros m Hm. destruct (for_member p u m) eqn:F; [|reflexivity].
        apply for_member_pair in F. injection F as H1 H2. destruct (Hno m Hm). auto. }
    simpl. unfold for_member. simpl. rewrite !bool_decide_eq_true_2 by reflexivity.
    simpl. case_bool_decide; simpl; [reflexivity|]. apply orb_false_r.
Qed.


End Checks.

Section Catalogue.

(** X5. The default permission lists are nested: every permission of the
    viewer role is one of the editor role, every permission of the
    editor role is one of the admin role, and the custom role starts
    with none. *)
Theorem role_permissions_nested (perm : string) :
  (perm ∈ getRolePermissions "viewer" -> perm ∈ getRolePermissions "editor") /\
  (perm ∈ getRolePermissions "editor" -> perm ∈ getRolePermissions "admin") /\
  perm ∉ getRolePermissions "custom".
Proof.
  assert (H1 : Forall (fun x => x ∈ getRolePermissions "editor") (getRolePermissions "viewer")).
  { apply (bool_decide_unpack _). vm_compute. reflexivity. }
  assert (H2 : Forall (fun x => x ∈ getRolePermissions "admin") (getRolePermissions "editor")).
  { apply (bool_decide_unpack _). vm_compute. reflexivity. }
  rewrite Forall_forall in H1, H2.
  split; [apply H1|]. split; [apply H2|]. intros H. inversion H.
Qed.

Lemma set_add_elem acc x y : y ∈ set_add acc x <-> y ∈ acc \/ y = x.
Proof.
  unfold set_add. case_bool_decide as H.
  - split; [auto|]. intros [?| ->]; assumption.
  - rewrite elem_of_app, list_elem_of_singleton. reflexivity.
Qed.

Lemma set_add_NoDup acc x : NoDup acc -> NoDup (set_add acc x).
Proof.
  intros Hnd. unfold set_add. case_bool_decide as H; [exact Hnd|].
  apply NoDup_app. split; [exact Hnd|]. split; [|apply NoDup_singleton].
  intros y Hy Hy'. apply list_elem_of_singleton in Hy'. subst. auto.
Qed.

Lemma add_list_elem ps acc y :
  y ∈ fold_left set_add ps acc <-> y ∈ acc \/ y ∈ ps.
Proof.
  revert acc. induction ps as [|x ps IH]; intros acc; simpl.
  - split; [auto|]. intros [?|H]; [assumption | inversion H].
  - rewrite IH, set_add_elem, elem_of_cons. tauto.
Qed.

Lemma add_list_NoDup ps acc : NoDup acc -> NoDup (fold_left set_add ps acc).
Proof.
  revert acc. induction ps as [|x ps IH]; intros acc H; simpl; [exact H|].
  apply IH, set_add_NoDup, H.
Qed.

Lemma collect_elem roles acc y :
  y ∈ fold_left (fun a r => fold_left set_add (role_permissions r) a) roles acc <->
  y ∈ acc \/ exists r, r ∈ roles /\ y ∈ role_permissions r.
Proof.
  revert acc. induction roles as [|r roles IH]; intros acc; simpl.
  - split; [auto|]. intros [?|(r & Hr & _)]; [assumption | inversion Hr].
  - rewrite IH, add_list_elem. split.
    + intros [[?|?]|(r' & Hr' & ?)]; [auto | right; exists r; split; [left|assumption] |].
      right. exists r'. split; [right|]; assumption.
    + intros [?|(r' & Hr' & Hy)]; [auto|].
      apply elem_of_cons in Hr' as [-> | Hr']; [auto|]. right. eauto.
Qed.

Lemma collect_NoDup roles acc :
  NoDup acc ->
  NoDup (fold_left (fun a r => fold_left set_add (role_permissions r) a) roles acc).
Proof.
  revert acc. induction roles as [|r roles IH]; intros acc H; simpl; [exact H|].
  apply IH, add_list_NoDup, H.
Qed.

#[local] Instance str_le_total : Total str_le.
Proof. intros x y. apply String.leb_total. Qed.

(** X6. [getAllPermissions] over any role table returns an array in
    ascending order, without repetition, that holds a permission exactly
    when some role of the table lists it. *)
Theorem getAllPermissions_catalogue (roles : list RoleDef) :
  Sorted str_le (getAllPermissionsOf roles) /\
  NoDup (getAllPermissionsOf roles) /\
  forall perm, perm ∈ getAllPermissionsOf roles <->
               exists r, r ∈ roles /\ perm ∈ role_permissions r.
Proof.
  unfold getAllPermissionsOf. split; [apply Sorted_merge_sort, _|]. split.
  - rewrite merge_sort_Permutation. apply collect_NoDup, NoDup_nil_2.
  - intros perm. rewrite merge_sort_Permutation, collect_elem. split.
    + intros [H|H]; [inversion H | exact H].
    + auto.
Qed.

End Catalogue.

Section Scenarios.

Lemma addMember_new_defaults_witness :
  "viewer" ∈ key <$> ROLES /\
  exists m, addMember "P" "Z" "viewer" (Some "A") [] "m9" "t1" t_AB = Ok (m, t_AB ++ [m]) /\
    hasPermission "P" "Z" (Single "query:execute") (t_AB ++ [m]) = true /\
    hasPermission "P" "Z" (Single "member:add") (t_AB ++ [m]) = false.
Proof.
  assert (Hr : "viewer" ∈ key <$> ROLES) by (apply (bool_decide_unpack _); vm_compute; reflexivity).
  assert (Hno : forall m, m ∈ t_AB -> ~ (project_id m = "P" /\ user_id m = "Z")).
  { intros m Hm [_ Hu]. unfold t_AB in Hm.
    apply elem_of_cons in Hm as [-> | Hm]; [discriminate|].
    apply elem_of_cons in Hm as [-> | Hm]; [discriminate|]. inversion Hm. }
  split; [exact Hr|].
  destruct (addMember_new_defaults "P" "Z" "viewer" (Some "A") [] "m9" "t1" t_AB Hr Hno)
    as (m & H & _ & _ & _ & Hperm & Hcheck).
  exists m. split; [exact H|]. rewrite !Hcheck, Hperm. split; vm_compute; reflexivity.
Defined.

Lemma removeMember_revokes_witness :
  removeMember "P" "B" "t1" t_AB = Ok (1%nat, [member_row "m1" "A" "admin" true;
                                               deactivated "t1" (member_row "m2" "B" "editor" true)]) /\
  hasPermission "P" "B" (Single "query:read") t_AB = true /\
  hasPermission "P" "B" (Single "query:read")
    [member_row "m1" "A" "admin" true; deactivated "t1" (member_row "m2" "B" "editor" true)]
    = false.
Proof.
  assert (H : removeMember "P" "B" "t1" t_AB =
              Ok (1%nat, [member_row "m1" "A" "admin" true;
                          deactivated "t1" (member_row "m2" "B" "editor" true)]))
    by reflexivity.
  split; [exact H|]. split; [vm_compute; reflexivity|].
  apply (removeMember_revokes "P" "B" "t1" t_AB _ _ (Single "query:read") H).
Defined.


End Scenarios.

End MemberStaticProps.

(** * Properties of authentication *)

Module AuthnProps.
Import Authn.

Section Middleware.

Lemma authenticate_unauthorized (authorization : option string)
    (verify : string -> option string) (users : list User) :
  exists message, authenticate authorization verify users = Unauthorized message /\
                  message ∈ messages.
Proof.
  unfold authenticate, messages.
  destruct authorization as [authHeader|]; [|eexists; split; [reflexivity | set_solver]].
  destruct (negb (String.prefix "Bearer " authHeader));
    [eexists; split; [reflexivity | set_solver]|].
  destruct (split " " authHeader !! 1%nat) as [token|];
    [|eexists; split; [reflexivity | set_solver]].
  case_bool_decide; [eexists; split; [reflexivity | set_solver]|].
  destruct (verify token) as [i|]; [|eexists; split; [reflexivity | set_solver]].
  destruct (List.find _ users) as [user|]; eexists; split; try reflexivity; set_solver.
Qed.

(** X10. As the repository configures knex, [authenticate] never calls
    [next()]: every request is answered 401 with one of the four
    messages, and the valid token of the active user A gets the message
    of an inactive account, the property [is_active] of the fetched row
    being [undefined]. *)
Theorem authenticate_rejects_every_request :
  (forall authorization verify users,
     exists message, authenticate authorization verify users = Unauthorized message /\
                     message ∈ messages) /\
  mkUser "A" true ∈ users0 /\ verify0 "tokA" = Some "A" /\
  authenticate (Some "Bearer tokA") verify0 users0
    = Unauthorized "User not found or account is inactive".
Proof.
  split; [apply authenticate_unauthorized|].
  split; [left|]. split; reflexivity.
Qed.

(** X11. A user whose account is inactive is never authenticated,
    whatever the header and whatever token verifies. *)
Theorem authenticate_inactive (authorization : option string)
    (verify : string -> option string) (users : list User) :
  (forall u, u ∈ users -> u_is_active u = false) ->
  exists message, authenticate authorization verify users = Unauthorized message.
Proof.
  intros _. destruct (authenticate_unauthorized authorization verify users)
    as (message & H & _). eauto.
Qed.

End Middleware.

Section Scenarios.

Lemma authenticate_inactive_witness :
  (forall u, u ∈ [mkUser "Z" false] -> u_is_active u = false) /\
  exists message,
    authenticate (Some "Bearer tokZ") verify0 [mkUser "Z" false] = Unauthorized message.
Proof.
  assert (H : forall u, u ∈ [mkUser "Z" false] -> u_is_active u = false).
  { intros u Hu. apply list_elem_of_singleton in Hu. subst u. reflexivity. }
  split; [exact H|].
  apply (authenticate_inactive (Some "Bearer tokZ") verify0 [mkUser "Z" false] H).
Defined.

End Scenarios.

End AuthnProps.

(** * Properties of the primary lookup *)

Module DatabasesMoreProps.
Import Databases DatabasesMore.

(** X16. While a project has at most one primary, [getPrimaryDatabase]
    returns it: any row of the project flagged primary is the row the
    lookup gives, and the lookup gives nothing only when no row of the
    project is flagged. *)
Theorem getPrimaryDatabase_unique (p : string) (t : table) :
  one_primary t ->
  (forall r, r ∈ t -> project_id r = p -> is_primary r = true ->
             getPrimaryDatabase p t = Some r) /\
  (getPrimaryDatabase p t = None ->
   forall r, r ∈ t -> project_id r = p -> is_primary r = false).
Proof.
  intros H. unfold getPrimaryDatabase. specialize (H p).
  assert (Hel : forall r, r ∈ primaries p t <-> r ∈ t /\ project_id r = p /\ is_primary r = true).
  { intros r. unfold primaries. rewrite !list_elem_of_In, List.filter_In, andb_true_iff,
      bool_decide_eq_true. tauto. }
  split.
  - intros r Hin Hp Hpr.
    assert (Hr : r ∈ primaries p t) by (apply Hel; auto).
    destruct (primaries p t) as [|a [|b l]]; simpl in *.
    + inversion Hr.
    + apply list_elem_of_singleton in Hr. subst. reflexivity.
    + lia.
  - intros Hn r Hin Hp. destruct (is_primary r) eqn:E; [|reflexivity].
    assert (Hr : r ∈ primaries p t) by (apply Hel; auto).
    destruct (primaries p t); [inversion Hr | discriminate].
Qed.

Lemma getPrimaryDatabase_unique_witness :
  one_primary [D1; D2] /\ getPrimaryDatabase "P" [D1; D2] = Some D1.
Proof.
  assert (H : one_primary [D1; D2]).
  { intros p. unfold primaries. simpl. repeat case_bool_decide; simpl; lia. }
  split; [exact H|].
  apply (getPrimaryDatabase_unique "P" [D1; D2] H); [left | reflexivity | reflexivity].
Defined.

End DatabasesMoreProps.

(** * Properties of the shutdown pass *)

Module BrokerSeqProps.
Import Databases Broker BrokerProps.

Section Invariants.

Implicit Types (e : env) (s : state) (p d k : string) (c h : Knex).

Lemma cleanup_destroy_fold e (m : gmap string Knex) s0 i :
  i ∈ destroy_called (map_fold (cleanup_entry e) s0 m) <->
  i ∈ destroy_called s0 \/ exists k c, m !! k = Some c /\ hid c = i.
Proof.
  apply (map_fold_weak_ind (fun s' m =>
    i ∈ destroy_called s' <->
    i ∈ destroy_called s0 \/ exists k c, m !! k = Some c /\ hid c = i)).
  - split; [auto|]. intros [?|(k & c & Hk & _)]; [assumption|].
    rewrite lookup_empty in Hk. discriminate.
  - intros k c m' r Hk IH.
    assert (Hd : i ∈ destroy_called (cleanup_entry e k c r) <->
                 i = hid c \/ i ∈ destroy_called r).
    { unfold cleanup_entry.
      destruct (destroy_error e c); simpl;
        rewrite elem_of_union, elem_of_singleton; reflexivity. }
    rewrite Hd, IH. split.
    + intros [-> | [? | (k' & c' & Hk' & Hc')]]; [right | auto | right].
      * exists k, c. rewrite lookup_insert_eq. auto.
      * exists k', c'. rewrite lookup_insert_ne; [auto|]. intros ->. congruence.
    + intros [? | (k' & c' & Hk' & Hc')]; [auto|].
      destruct (decide (k = k')) as [-> | N].
      * rewrite lookup_insert_eq in Hk'. injection Hk' as <-. auto.
      * rewrite lookup_insert_ne in Hk' by exact N. right. right. eauto.
Qed.

(** X19. The shutdown pass is best effort: [destroy()] is called on
    every cached instance even when it throws on some of them, the
    entries whose [destroy()] returned are gone, and a second pass
    leaves the cache as the first one left it. *)
Theorem cleanup_best_effort (e : env) (s : state) :
  (forall k c, dbConnections s !! k = Some c ->
     hid c ∈ destroy_called (cleanupDbConnections e s) /\
     (destroy_error e c = None -> dbConnections (cleanupDbConnections e s) !! k = None)) /\
  dbConnections (cleanupDbConnections e (cleanupDbConnections e s))
  = dbConnections (cleanupDbConnections e s).
Proof.
  split.
  - intros k c Hk. split.
    + unfold cleanupDbConnections. apply cleanup_destroy_fold. right. eauto.
    + intros Hd. rewrite cleanup_lookup, Hk, Hd. reflexivity.
  - apply map_eq. intros k. rewrite !cleanup_lookup.
    destruct (dbConnections s !! k) as [c|]; [|reflexivity].
    destruct (destroy_error e c) eqn:D; [|reflexivity]. rewrite D. reflexivity.
Qed.

End Invariants.

End BrokerSeqProps.

(** * Further properties of query execution *)

Module GatewayMoreProps.
Import Gateway.

Section Classification.

Implicit Types (l ws : list ascii) (q : string).

Lemma chars_app (a b : string) :
  String.list_ascii_of_string (a +:+ b)
  = String.list_ascii_of_string a ++ String.list_ascii_of_string b.
Proof.
  induction a as [|c a IH]; [reflexivity|].
  change (String c a +:+ b) with (String c (a +:+ b)). simpl. rewrite IH. reflexivity.
Qed.

Lemma drop_space_blank_l ws l :
  forallb is_space ws = true -> drop_space (ws ++ l) = drop_space l.
Proof.
  induction ws as [|a ws IH]; simpl; [reflexivity|].
  intros H. apply andb_true_iff in H as [Ha Hws]. rewrite Ha. apply IH, Hws.
Qed.

Lemma drop_space_blank ws : forallb is_space ws = true -> drop_space ws = [].
Proof.
  intros H. rewrite <- (app_nil_r ws). rewrite drop_space_blank_l by exact H. reflexivity.
Qed.

Lemma drop_space_app l ws :
  drop_space (l ++ ws) = match drop_space l with
                         | [] => drop_space ws
                         | x => x ++ ws
                         end.
Proof.
  induction l as [|a l IH]; simpl; [destruct (drop_space ws); reflexivity|].
  destruct (is_space a); [exact IH | reflexivity].
Qed.

Lemma forallb_rev ws : forallb is_space (rev ws) = forallb is_space ws.
Proof.
  induction ws as [|a ws IH]; simpl; [reflexivity|].
  rewrite forallb_app, IH. simpl. rewrite andb_true_r. apply andb_comm.
Qed.

(** Blanks around the text do not change what [trim()] leaves. *)
Lemma trim_blank ws1 ws2 l :
  forallb is_space ws1 = true -> forallb is_space ws2 = true ->
  rev (drop_space (rev (drop_space (ws1 ++ l ++ ws2))))
  = rev (drop_space (rev (drop_space l))).
Proof.
  intros H1 H2. rewrite drop_space_blank_l by exact H1. rewrite drop_space_app.
  destruct (drop_space l) as [|a x] eqn:E.
  - rewrite (drop_space_blank ws2 H2). reflexivity.
  - rewrite rev_app_distr, drop_space_blank_l; [reflexivity|].
    rewrite forallb_rev. exact H2.
Qed.

(** X21. Blanks before and after the query text (spaces, tabs, line
    breaks) change neither the read/command classification nor the
    shape of the returned data. *)
Theorem is_read_query_ignores_blanks (ws1 ws2 q : string) (r : QueryResult) :
  forallb is_space (String.list_ascii_of_string ws1) = true ->
  forallb is_space (String.list_ascii_of_string ws2) = true ->
  is_read_query (ws1 +:+ (q +:+ ws2)) = is_read_query q /\
  data_of (ws1 +:+ (q +:+ ws2)) r = data_of q r.
Proof.
  intros H1 H2.
  assert (E : trim_lower (ws1 +:+ (q +:+ ws2)) = trim_lower q).
  { unfold trim_lower. rewrite !chars_app, trim_blank by assumption. reflexivity. }
  unfold data_of, is_read_query. rewrite E. split; reflexivity.
Qed.

Lemma is_space_lower (a : ascii) : is_space (lower a) = is_space a.
Proof. destruct a as [[] [] [] [] [] [] [] []]; reflexivity. Qed.

Lemma drop_space_lower l l' :
  List.map lower l = List.map lower l' ->
  List.map lower (drop_space l) = List.map lower (drop_space l').
Proof.
  revert l'. induction l as [|a l IH]; intros [|b l'] H; try discriminate; [reflexivity|].
  simpl in H. injection H as Hab Hl. simpl.
  assert (Hs : is_space a = is_space b).
  { rewrite <- (is_space_lower a), <- (is_space_lower b), Hab. reflexivity. }
  rewrite Hs. destruct (is_space b); [apply IH, Hl|]. simpl. rewrite Hab, Hl. reflexivity.
Qed.

Lemma map_lower_rev l l' :
  List.map lower l = List.map lower l' -> List.map lower (rev l) = List.map lower (rev l').
Proof. intros H. rewrite !List.map_rev, H. reflexivity. Qed.

(** X22. The classification is case-insensitive: two query texts that
    differ only in the case of ASCII letters are classified alike. *)
Theorem is_read_query_ignores_case (q q' : string) :
  List.map lower (String.list_ascii_of_string q)
  = List.map lower (String.list_ascii_of_string q') ->
  is_read_query q = is_read_query q'.
Proof.
  intros H. unfold is_read_query, trim_lower.
  assert (E : List.map lower (rev (drop_space (rev (drop_space (String.list_ascii_of_string q)))))
            = List.map lower (rev (drop_space (rev (drop_space (String.list_ascii_of_string q')))))).
  { apply map_lower_rev, drop_space_lower, map_lower_rev, drop_space_lower, H. }
  rewrite E. reflexivity.
Qed.

End Classification.

Section Scenarios.

Lemma is_read_query_ignores_blanks_witness :
  forallb is_space (String.list_ascii_of_string "  ") = true /\
  is_read_query ("  " +:+ ("SELECT 1" +:+ " ")) = true /\
  data_of ("  " +:+ ("SELECT 1" +:+ " ")) one_row = Rows ["{ ?column?: 1 }"].
Proof.
  destruct (is_read_query_ignores_blanks "  " " " "SELECT 1" one_row eq_refl eq_refl)
    as [H1 H2].
  split; [reflexivity|]. split; [rewrite H1 | rewrite H2]; reflexivity.
Defined.

Lemma is_read_query_ignores_case_witness :
  is_read_query "Select 1" = is_read_query "sELECT 1" /\
  is_read_query "Select 1" = true.
Proof.
  split; [|reflexivity].
  apply (is_read_query_ignores_case "Select 1" "sELECT 1"). reflexivity.
Defined.

End Scenarios.

End GatewayMoreProps.
